(** * Giter: the commit-history aggregator of [main.go]

    A shallow embedding of [getGitHistory], [fetchRepositories] and
    [fetchCommits], together with the parts of Go's runtime and standard
    library they lean on: slices that are either [nil] or allocated, the
    bounds check of a slice expression, the way [encoding/json] fills a
    struct from a JSON value, and the way gin turns the handler's value
    (or its panic) into an HTTP reply. *)

From Stdlib Require Import String Ascii List ZArith Lia Bool Arith.
Import ListNotations.
Local Open Scope list_scope.
Local Open Scope string_scope.
Local Open Scope nat_scope.

(* ===================================================================== *)
(** ** Go values *)
(* ===================================================================== *)

(** A Go slice is either the [nil] slice or an allocated one; both may have
    length zero, and [encoding/json] tells them apart. *)
Inductive slice (A : Type) : Type :=
| nil_slice
| make_slice (items : list A).
Arguments nil_slice {A}.
Arguments make_slice {A} items.

Definition elems {A} (s : slice A) : list A :=
  match s with
  | nil_slice => []
  | make_slice l => l
  end.

Definition len {A} (s : slice A) : nat := List.length (elems s).

Definition is_nil {A} (s : slice A) : bool :=
  match s with
  | nil_slice => true
  | make_slice _ => false
  end.

(** [append(s, x)]: the result is always allocated. *)
Definition append {A} (s : slice A) (x : A) : slice A :=
  make_slice (elems s ++ [x])%list.

(** Go's [error] values, by where this program gets them from.  Only
    [Error()] is ever called on them. *)
Inductive error : Type :=
| ClientError (msg : string)            (* http.NewRequest, http.Client.Do *)
| ErrorString (msg : string)            (* fmt.Errorf *)
| SyntaxError (msg : string)            (* the JSON scanner, or reading the body *)
| UnmarshalTypeError (value field : string)   (* a JSON value of the wrong kind *)
| UnmarshalerError (msg : string).      (* time.Time's UnmarshalJSON *)

(** A Go result pair [(v, err)] in which exactly one side is meaningful. *)
Inductive result (A : Type) : Type :=
| Ok (v : A)
| Err (err : error).
Arguments Ok {A} v.
Arguments Err {A} err.

Definition is_ok {A} (r : result A) : bool :=
  match r with
  | Ok _ => true
  | Err _ => false
  end.

(** JSON values as the scanner of [encoding/json] delivers them. *)
#[warnings="-register-all"]
Inductive json : Type :=
| JNull
| JBool (b : bool)
| JNum (lit : string)
| JStr (s : string)
| JArr (items : list json)
| JObj (members : list (string * json)).

(** What the program takes from Go's standard library without looking
    inside: [time.Time] with its zero value and its JSON reader, the
    case folding [encoding/json] applies to object keys, and the text of an
    [UnmarshalTypeError]. *)
Class GoLib : Type := {
  Time : Type;
  zeroTime : Time;
  (** [UnmarshalJSON] of [time.Time], on a token other than [null] *)
  timeUnmarshalJSON : json -> result Time;
  (** [foldName] of [encoding/json] *)
  foldName : string -> string;
  (** [Error] of an [UnmarshalTypeError] *)
  typeErrorText : string -> string -> string
}.

(** An instance to run the model on: times are kept as their RFC 3339
    text, of which only the form [YYYY-MM-DDThh:mm:ssZ] is read; keys fold
    by ASCII upper-casing. *)
Module Sample.

Definition is_digit (c : ascii) : bool :=
  let n := nat_of_ascii c in (48 <=? n) && (n <=? 57).

Definition digit (c : ascii) : nat := nat_of_ascii c - 48.

Definition two (a b : ascii) : option nat :=
  if is_digit a && is_digit b then Some (10 * digit a + digit b) else None.

Definition between (lo hi : nat) (o : option nat) : bool :=
  match o with
  | Some n => (lo <=? n) && (n <=? hi)
  | None => false
  end.

Definition utc_seconds (s : string) : bool :=
  match list_ascii_of_string s with
  | [y1; y2; y3; y4; d1; m1; m2; d2; a1; a2; t; h1; h2; c1; n1; n2; c2; s1; s2; z] =>
      is_digit y1 && is_digit y2 && is_digit y3 && is_digit y4
      && Ascii.eqb d1 "-" && between 1 12 (two m1 m2)
      && Ascii.eqb d2 "-" && between 1 28 (two a1 a2)
      && Ascii.eqb t "T" && between 0 23 (two h1 h2)
      && Ascii.eqb c1 ":" && between 0 59 (two n1 n2)
      && Ascii.eqb c2 ":" && between 0 59 (two s1 s2)
      && Ascii.eqb z "Z"
  | _ => false
  end.

Definition upper (c : ascii) : ascii :=
  let n := nat_of_ascii c in
  if (97 <=? n) && (n <=? 122) then ascii_of_nat (n - 32) else c.

Definition fold (s : string) : string :=
  string_of_list_ascii (map upper (list_ascii_of_string s)).

Definition readTime (j : json) : result string :=
  match j with
  | JStr s =>
      if utc_seconds s then Ok s
      else Err (UnmarshalerError ("parsing time " ++ s))
  | _ => Err (UnmarshalerError "Time.UnmarshalJSON: input is not a JSON string")
  end.

Definition lib : GoLib := {|
  Time := string;
  zeroTime := "0001-01-01T00:00:00Z";
  timeUnmarshalJSON := readTime;
  foldName := fold;
  typeErrorText := fun value field =>
    "json: cannot unmarshal " ++ value ++ " into Go struct field " ++ field
|}.

End Sample.

(** [err.Error()] *)
Definition Error `{GoLib} (e : error) : string :=
  match e with
  | ClientError msg => msg
  | ErrorString msg => msg
  | SyntaxError msg => msg
  | UnmarshalTypeError value field => typeErrorText value field
  | UnmarshalerError msg => msg
  end.

(** [s[:hi]] on a string: the run-time bounds check panics when [hi]
    exceeds the length in bytes. *)
Inductive outcome (A : Type) : Type :=
| Done (v : A)
| Panic (reason : string).
Arguments Done {A} v.
Arguments Panic {A} reason.

Definition slice_to (s : string) (hi : nat) : outcome string :=
  if hi <=? String.length s then Done (substring 0 hi s)
  else Panic "slice bounds out of range".

(* ===================================================================== *)
(** ** The structs of [main.go] *)
(* ===================================================================== *)

(** [type Repository struct] *)
Module Repository.
Record t : Type := make {
  Name : string;          (* json:"name" *)
  FullName : string;      (* json:"full_name" *)
  Description : string;   (* json:"description" *)
  HTMLURL : string        (* json:"html_url" *)
}.
Definition zero : t := make "" "" "" "".
End Repository.

(** [type Commit struct], with its two anonymous nested structs. *)
Module Commit.
Record Author_t `{GoLib} : Type := make_author {
  Name : string;          (* json:"name" *)
  Email : string;         (* json:"email" *)
  Date : Time             (* json:"date" *)
}.
Record Commit_t `{GoLib} : Type := make_commit {
  Message : string;       (* json:"message" *)
  Author : Author_t       (* json:"author" *)
}.
Record t `{GoLib} : Type := make {
  SHA : string;           (* json:"sha" *)
  Commit : Commit_t;      (* json:"commit" *)
  HTMLURL : string        (* json:"html_url" *)
}.
Arguments make_author {_} Name Email Date.
Arguments make_commit {_} Message Author.
Arguments make {_} SHA Commit HTMLURL.
Definition zero_author `{GoLib} : Author_t := make_author "" "" zeroTime.
Definition zero_commit `{GoLib} : Commit_t := make_commit "" zero_author.
Definition zero `{GoLib} : t := make "" zero_commit "".
End Commit.

(** [type CommitHistory struct] *)
Record CommitHistory `{GoLib} : Type := make_CommitHistory {
  RepositoryName : string;   (* json:"repository_name" *)
  CommitMessage : string;    (* json:"commit_message" *)
  CommitSHA : string;        (* json:"commit_sha" *)
  CommitTime : Time;         (* json:"commit_time" *)
  CommitURL : string         (* json:"commit_url" *)
}.

Arguments make_CommitHistory {_} RepositoryName CommitMessage CommitSHA
  CommitTime CommitURL.

Definition githubAPIBase : string := "https://api.github.com".
Definition username : string := "develop-suda".

Definition StatusOK : Z := 200.
Definition StatusInternalServerError : Z := 500.

(* ===================================================================== *)
(** ** [encoding/json]: filling a Go value from a JSON value *)
(* ===================================================================== *)

(** The decoder keeps the first mismatch of kinds it meets and goes on
    (the value is left as it was); an error of a type's own [UnmarshalJSON]
    stops it at once.  [Dec] threads the saved error and can stop. *)
Definition Dec (A : Type) : Type := option error -> result (A * option error).

Definition dec_ret {A} (a : A) : Dec A := fun saved => Ok (a, saved).

Definition dec_bind {A B} (d : Dec A) (k : A -> Dec B) : Dec B :=
  fun saved =>
    match d saved with
    | Ok (a, saved') => k a saved'
    | Err e => Err e
    end.

Notation "x <~ d ;; k" := (dec_bind d (fun x => k))
  (at level 61, d at next level, right associativity).

Definition dec_stop {A} (e : error) : Dec A := fun _ => Err e.

Definition saveError {A} (e : error) (cur : A) : Dec A :=
  fun saved =>
    Ok (cur, match saved with
             | None => Some e
             | Some _ => saved
             end).

(** What [Unmarshal] hands back once the value has been walked. *)
Definition dec_run {A} (d : Dec A) : result A :=
  match d None with
  | Ok (a, None) => Ok a
  | Ok (_, Some e) => Err e
  | Err e => Err e
  end.

(** The [Value] of an [UnmarshalTypeError]. *)
Definition kind (j : json) : string :=
  match j with
  | JNull => "null"
  | JBool _ => "bool"
  | JNum _ => "number"
  | JStr _ => "string"
  | JArr _ => "array"
  | JObj _ => "object"
  end.

Section Decode.
Context `{L : GoLib}.

(** Into a [string]: a JSON string is stored, [null] changes nothing. *)
Definition dec_string (path : string) (j : json) (cur : string) : Dec string :=
  match j with
  | JStr s => dec_ret s
  | JNull => dec_ret cur
  | _ => saveError (UnmarshalTypeError (kind j) path) cur
  end.

(** Into a [time.Time]: [null] changes nothing, any other token goes to
    the type's own reader. *)
Definition dec_time (j : json) (cur : Time) : Dec Time :=
  match j with
  | JNull => dec_ret cur
  | _ =>
      match timeUnmarshalJSON j with
      | Ok t => dec_ret t
      | Err e => dec_stop e
      end
  end.

(** The struct field an object key selects: the field whose tag is the key,
    or else the first one whose tag folds to the same name; a key that
    selects none is skipped with its value. *)
Definition find_field {F} (tag : F -> string) (fields : list F) (key : string)
  : option F :=
  match find (fun f => String.eqb (tag f) key) fields with
  | Some f => Some f
  | None => find (fun f => String.eqb (foldName (tag f)) (foldName key)) fields
  end.

(** The members of an object, in the order they are written; a key given
    twice is stored twice, the second time over the first. *)
Fixpoint dec_members {A} (field : string -> json -> A -> Dec A)
    (ms : list (string * json)) (cur : A) : Dec A :=
  match ms with
  | [] => dec_ret cur
  | (key, v) :: rest =>
      cur' <~ field key v cur ;;
      dec_members field rest cur'
  end.

(** Into a struct: an object is stored member by member, [null] changes
    nothing. *)
Definition dec_struct {A} (path : string) (field : string -> json -> A -> Dec A)
    (j : json) (cur : A) : Dec A :=
  match j with
  | JObj ms => dec_members field ms cur
  | JNull => dec_ret cur
  | _ => saveError (UnmarshalTypeError (kind j) path) cur
  end.

(** The elements of an array, each into a fresh zero value. *)
Fixpoint dec_elems {A} (zero : A) (elem : json -> A -> Dec A)
    (items : list json) : Dec (list A) :=
  match items with
  | [] => dec_ret []
  | j :: rest =>
      a <~ elem j zero ;;
      l <~ dec_elems zero elem rest ;;
      dec_ret (a :: l)
  end.

(** Into a [nil] slice ([var repos []Repository]): an array gives an
    allocated slice, also when it is empty; [null] leaves the slice [nil]. *)
Definition dec_slice {A} (zero : A) (elem : json -> A -> Dec A) (j : json)
  : Dec (slice A) :=
  match j with
  | JArr items =>
      l <~ dec_elems zero elem items ;;
      dec_ret (make_slice l)
  | JNull => dec_ret nil_slice
  | _ => saveError (UnmarshalTypeError (kind j) "") nil_slice
  end.

(** *** [Repository] *)

Inductive repository_field : Type :=
| R_name | R_full_name | R_description | R_html_url.

Definition repository_tag (f : repository_field) : string :=
  match f with
  | R_name => "name"
  | R_full_name => "full_name"
  | R_description => "description"
  | R_html_url => "html_url"
  end.

Definition repository_fields : list repository_field :=
  [R_name; R_full_name; R_description; R_html_url].

Definition dec_repository_field (key : string) (v : json) (r : Repository.t)
  : Dec Repository.t :=
  let '(Repository.make name full_name description html_url) := r in
  match find_field repository_tag repository_fields key with
  | Some R_name =>
      s <~ dec_string "name" v name ;;
      dec_ret (Repository.make s full_name description html_url)
  | Some R_full_name =>
      s <~ dec_string "full_name" v full_name ;;
      dec_ret (Repository.make name s description html_url)
  | Some R_description =>
      s <~ dec_string "description" v description ;;
      dec_ret (Repository.make name full_name s html_url)
  | Some R_html_url =>
      s <~ dec_string "html_url" v html_url ;;
      dec_ret (Repository.make name full_name description s)
  | None => dec_ret r
  end.

Definition dec_repository : json -> Repository.t -> Dec Repository.t :=
  dec_struct "" dec_repository_field.

(** [Decode(&repos)] once the body has been scanned. *)
Definition unmarshal_repositories (j : json) : result (slice Repository.t) :=
  dec_run (dec_slice Repository.zero dec_repository j).

(** *** [Commit] *)

Inductive author_field : Type := A_name | A_email | A_date.

Definition author_tag (f : author_field) : string :=
  match f with
  | A_name => "name"
  | A_email => "email"
  | A_date => "date"
  end.

Definition author_fields : list author_field := [A_name; A_email; A_date].

Definition dec_author_field (key : string) (v : json) (a : Commit.Author_t)
  : Dec Commit.Author_t :=
  let '(Commit.make_author name email date) := a in
  match find_field author_tag author_fields key with
  | Some A_name =>
      s <~ dec_string "commit.author.name" v name ;;
      dec_ret (Commit.make_author s email date)
  | Some A_email =>
      s <~ dec_string "commit.author.email" v email ;;
      dec_ret (Commit.make_author name s date)
  | Some A_date =>
      t <~ dec_time v date ;;
      dec_ret (Commit.make_author name email t)
  | None => dec_ret a
  end.

Inductive inner_field : Type := I_message | I_author.

Definition inner_tag (f : inner_field) : string :=
  match f with
  | I_message => "message"
  | I_author => "author"
  end.

Definition inner_fields : list inner_field := [I_message; I_author].

Definition dec_inner_field (key : string) (v : json) (c : Commit.Commit_t)
  : Dec Commit.Commit_t :=
  let '(Commit.make_commit message author) := c in
  match find_field inner_tag inner_fields key with
  | Some I_message =>
      s <~ dec_string "commit.message" v message ;;
      dec_ret (Commit.make_commit s author)
  | Some I_author =>
      a <~ dec_struct "commit.author" dec_author_field v author ;;
      dec_ret (Commit.make_commit message a)
  | None => dec_ret c
  end.

Inductive commit_field : Type := C_sha | C_commit | C_html_url.

Definition commit_tag (f : commit_field) : string :=
  match f with
  | C_sha => "sha"
  | C_commit => "commit"
  | C_html_url => "html_url"
  end.

Definition commit_fields : list commit_field := [C_sha; C_commit; C_html_url].

Definition dec_commit_field (key : string) (v : json) (c : Commit.t)
  : Dec Commit.t :=
  let '(Commit.make sha inner html_url) := c in
  match find_field commit_tag commit_fields key with
  | Some C_sha =>
      s <~ dec_string "sha" v sha ;;
      dec_ret (Commit.make s inner html_url)
  | Some C_commit =>
      i <~ dec_struct "commit" dec_inner_field v inner ;;
      dec_ret (Commit.make sha i html_url)
  | Some C_html_url =>
      s <~ dec_string "html_url" v html_url ;;
      dec_ret (Commit.make sha inner s)
  | None => dec_ret c
  end.

Definition dec_commit : json -> Commit.t -> Dec Commit.t :=
  dec_struct "" dec_commit_field.

(** [Decode(&commits)] once the body has been scanned. *)
Definition unmarshal_commits (j : json) : result (slice Commit.t) :=
  dec_run (dec_slice Commit.zero dec_commit j).

End Decode.

(* ===================================================================== *)
(** ** The upstream API and the handler's effects *)
(* ===================================================================== *)

(** An outbound request as the two fetchers build it. *)
Record Request : Type := make_Request {
  Method : string;
  URL : string;
  Accept : string
}.

(** An upstream response: its status code, its status line ([resp.Status],
    such as [200 OK]), the bytes of its body, and what the JSON scanner
    makes of those bytes. *)
Record Response : Type := make_Response {
  StatusCode : Z;
  Status : string;
  Body : string;
  Scanned : result json
}.

(** How one outbound call ends, that is [http.NewRequest] followed by
    [client.Do]: with an error, when the request could not be built (and
    nothing went out) or when it was sent and no response came back; or
    with a response. *)
Inductive reply : Type :=
| NoResponse (err : error)
| Replied (resp : Response).

(** The world outside the handler: how the server's [n]-th outbound call
    ends, given the request the call is made for. *)
Definition World : Type := nat -> Request -> reply.

Section Handler.
Context `{L : GoLib}.

(** The value handed to [c.JSON]. *)
Inductive payload : Type :=
| gin_H (fields : list (string * string))     (* gin.H{...} *)
| Commits (allCommits : slice CommitHistory).

(** The outbound calls made so far, the lines printed so far, and what the
    handler has written to its [gin.Context].  A call is recorded in [sent]
    as the request it was made for, whether it got a response, got none, or
    never left because [http.NewRequest] rejected its URL. *)
Record State : Type := make_State {
  sent : list Request;
  stdout : list string;
  written : option (Z * payload)
}.

(** The handler's code runs against the upstream, changes the state, and
    either finishes or panics. *)
Definition M (A : Type) : Type := World -> State -> outcome A * State.

Definition ret {A} (a : A) : M A := fun _ st => (Done a, st).

Definition bind {A B} (c : M A) (k : A -> M B) : M B :=
  fun w st =>
    match c w st with
    | (Done a, st') => k a w st'
    | (Panic r, st') => (Panic r, st')
    end.

Definition lift {A} (o : outcome A) : M A := fun _ st => (o, st).

(** [http.NewRequest], [req.Header.Set], [client.Do]: one outbound call.
    The call is recorded with the request it is made for, and the world
    says how it ends.  An error of [http.NewRequest] ends the call before
    anything reaches the network; it is an error of the call like one of
    [client.Do], and both fetchers return either as it is. *)
Definition http_get (url : string) : M reply :=
  fun w st =>
    let req := make_Request "GET" url "application/vnd.github.v3+json" in
    (Done (w (List.length (sent st)) req),
     make_State (sent st ++ [req])%list (stdout st) (written st)).

(** [fmt.Printf] *)
Definition Printf (line : string) : M unit :=
  fun _ st =>
    (Done tt, make_State (sent st) (stdout st ++ [line])%list (written st)).

(** [c.JSON(code, obj)] *)
Definition c_JSON (code : Z) (obj : payload) : M unit :=
  fun _ st => (Done tt, make_State (sent st) (stdout st) (Some (code, obj))).

End Handler.

Notation "x <- c ;; k" := (bind c (fun x => k))
  (at level 61, c at next level, right associativity).
Notation "c ;;; k" := (bind c (fun _ => k))
  (at level 61, right associativity).

Section Handler_code.
Context `{L : GoLib}.

(** [fmt.Errorf("GitHub API error: %s - %s", resp.Status, string(body))] *)
Definition api_error (resp : Response) : error :=
  ErrorString ("GitHub API error: " ++ Status resp ++ " - " ++ Body resp).

(** [json.NewDecoder(resp.Body).Decode(&v)] *)
Definition Decode {A} (unmarshal : json -> result A) (resp : Response)
  : result A :=
  match Scanned resp with
  | Ok j => unmarshal j
  | Err e => Err e
  end.

(** [func fetchRepositories() ([]Repository, error)] *)
Definition fetchRepositories : M (result (slice Repository.t)) :=
  let url :=
    githubAPIBase ++ "/users/" ++ username ++ "/repos?type=public&per_page=100" in
  r <- http_get url ;;
  match r with
  | NoResponse err => ret (Err err)
  | Replied resp =>
      if negb (StatusCode resp =? StatusOK)%Z then ret (Err (api_error resp))
      else ret (Decode unmarshal_repositories resp)
  end.

(** [func fetchCommits(repoFullName string) ([]Commit, error)] *)
Definition fetchCommits (repoFullName : string) : M (result (slice Commit.t)) :=
  let url :=
    githubAPIBase ++ "/repos/" ++ repoFullName ++ "/commits?per_page=100" in
  r <- http_get url ;;
  match r with
  | NoResponse err => ret (Err err)
  | Replied resp =>
      if negb (StatusCode resp =? StatusOK)%Z then ret (Err (api_error resp))
      else ret (Decode unmarshal_commits resp)
  end.

(** The body of the inner loop: one [CommitHistory] from a repository and
    one of its commits.  [commit.SHA[:7]] is where it can panic. *)
Definition newCommitHistory (repo : Repository.t) (commit : Commit.t)
  : outcome CommitHistory :=
  match slice_to (Commit.SHA commit) 7 with
  | Done sha =>
      Done (make_CommitHistory
              (Repository.Name repo)
              (Commit.Message (Commit.Commit commit))
              sha
              (Commit.Date (Commit.Author (Commit.Commit commit)))
              (Commit.HTMLURL commit))
  | Panic r => Panic r
  end.

(** [for _, commit := range commits { allCommits = append(allCommits, ...) }] *)
Fixpoint range_commits (repo : Repository.t) (commits : list Commit.t)
    (allCommits : slice CommitHistory) : M (slice CommitHistory) :=
  match commits with
  | [] => ret allCommits
  | commit :: rest =>
      entry <- lift (newCommitHistory repo commit) ;;
      range_commits repo rest (append allCommits entry)
  end.

(** [for _, repo := range repos { ... }] *)
Fixpoint range_repos (repos : list Repository.t)
    (allCommits : slice CommitHistory) : M (slice CommitHistory) :=
  match repos with
  | [] => ret allCommits
  | repo :: rest =>
      r <- fetchCommits (Repository.FullName repo) ;;
      match r with
      | Err err =>
          Printf ("Error fetching commits for " ++ Repository.Name repo
                  ++ ": " ++ Error err ++ String "010" "") ;;;
          range_repos rest allCommits
      | Ok commits =>
          allCommits' <- range_commits repo (elems commits) allCommits ;;
          range_repos rest allCommits'
      end
  end.

(** [func getGitHistory(c *gin.Context)] *)
Definition getGitHistory : M unit :=
  r <- fetchRepositories ;;
  match r with
  | Err err =>
      c_JSON StatusInternalServerError (gin_H [("error", Error err)])
  | Ok repos =>
      (* var allCommits []CommitHistory *)
      allCommits <- range_repos (elems repos) nil_slice ;;
      c_JSON StatusOK (Commits allCommits)
  end.

(** *** gin: from the handler to the HTTP reply *)

(** The body of the reply.  [json.Marshal] writes a [nil] slice as [null],
    an allocated one as an array, and [gin.H] as an object. *)
Inductive wire : Type :=
| NoBody
| JSONNull
| JSONArray (entries : list CommitHistory)
| JSONObject (fields : list (string * string)).

Definition Marshal (obj : payload) : wire :=
  match obj with
  | gin_H fields => JSONObject fields
  | Commits nil_slice => JSONNull
  | Commits (make_slice entries) => JSONArray entries
  end.

Record HTTPReply : Type := make_HTTPReply {
  code : Z;
  body : wire
}.

(** Every request gets a context nothing has been written to. *)
Definition fresh (st : State) : State :=
  make_State (sent st) (stdout st) None.

(** [GET /api/git-history] on the engine of [gin.Default()]: the handler
    runs on a fresh context; what it wrote with [c.JSON] is the reply, and
    the recovery middleware answers a panic with a bare 500. *)
Definition serve (w : World) (st : State) : HTTPReply * State :=
  match getGitHistory w (fresh st) with
  | (Done _, st') =>
      match written st' with
      | Some (code, obj) => (make_HTTPReply code (Marshal obj), st')
      | None => (make_HTTPReply StatusOK NoBody, st')
      end
  | (Panic _, st') => (make_HTTPReply StatusInternalServerError NoBody, st')
  end.

(** A server that has sent and printed nothing yet. *)
Definition boot : State := make_State [] [] None.

End Handler_code.

(* ===================================================================== *)
(** ** Vocabulary of the specification *)
(* ===================================================================== *)

Section Vocabulary.
Context `{L : GoLib}.

(** The requests the two fetchers make their calls for. *)
Definition listing_request : Request :=
  make_Request "GET"
    "https://api.github.com/users/develop-suda/repos?type=public&per_page=100"
    "application/vnd.github.v3+json".

Definition commits_request (repoFullName : string) : Request :=
  make_Request "GET"
    (githubAPIBase ++ "/repos/" ++ repoFullName ++ "/commits?per_page=100")
    "application/vnd.github.v3+json".

(** How both fetchers read what came back: no response is the client's
    error, a status other than 200 is an API error, and a 200 is decoded. *)
Definition answer {A} (unmarshal : json -> result A) (r : reply) : result A :=
  match r with
  | NoResponse err => Err err
  | Replied resp =>
      if (StatusCode resp =? StatusOK)%Z then Decode unmarshal resp
      else Err (api_error resp)
  end.

(** The state once one more call has been made. *)
Definition sending (st : State) (req : Request) : State :=
  make_State (sent st ++ [req])%list (stdout st) (written st).

(** A repository together with the outcome of its commit call. *)
Definition call : Type := Repository.t * result (slice Commit.t).

(** The commit calls of a run whose loop reaches its end, one per
    repository in listing order: [fetchCommits] on each full name in turn,
    from the state the listing call left. *)
Fixpoint commit_calls (w : World) (st : State) (repos : list Repository.t)
  : list call :=
  match repos with
  | [] => []
  | repo :: rest =>
      match fetchCommits (Repository.FullName repo) w st with
      | (Done r, st') => (repo, r) :: commit_calls w st' rest
      | (Panic _, _) => []
      end
  end.

(** The outcome of the repository-listing call of the request served from
    [st], and the commit calls that follow it. *)
Definition listed (w : World) (st : State) : outcome (result (slice Repository.t)) :=
  fst (fetchRepositories w (fresh st)).

Definition calls_of (w : World) (st : State) (repos : slice Repository.t)
  : list call :=
  commit_calls w (snd (fetchRepositories w (fresh st))) (elems repos).

(** The entry a commit stands for: the repository's name, the message, the
    first seven bytes of the hash, the author date and the commit's URL. *)
Definition entry_of (repo : Repository.t) (commit : Commit.t) : CommitHistory :=
  make_CommitHistory
    (Repository.Name repo)
    (Commit.Message (Commit.Commit commit))
    (substring 0 7 (Commit.SHA commit))
    (Commit.Date (Commit.Author (Commit.Commit commit)))
    (Commit.HTMLURL commit).

(** The entries one commit call contributes. *)
Definition block (c : call) : list CommitHistory :=
  match snd c with
  | Ok commits => map (entry_of (fst c)) (elems commits)
  | Err _ => []
  end.

(** The entries of all calls, block after block. *)
Definition history (calls : list call) : list CommitHistory :=
  concat (map block calls).

(** The number of commits a call returned, a failed call counting for none. *)
Definition returned (c : call) : nat :=
  match snd c with
  | Ok commits => len commits
  | Err _ => 0
  end.

(** The hash has seven bytes or more. *)
Definition sha_long (commit : Commit.t) : bool :=
  7 <=? String.length (Commit.SHA commit).

(** No commit a successful call returned has a shorter hash. *)
Definition shas_long (c : call) : bool :=
  match snd c with
  | Ok commits => forallb sha_long (elems commits)
  | Err _ => true
  end.

(** [extend s l] is [s] after [append]ing the elements of [l] one by one:
    nothing appended leaves [s] as it was, [nil] included. *)
Definition extend {A} (s : slice A) (l : list A) : slice A :=
  match l with
  | [] => s
  | _ :: _ => make_slice (elems s ++ l)%list
  end.

(** The line printed for a failed commit call. *)
Definition log_line (c : call) : list string :=
  match snd c with
  | Ok _ => []
  | Err err =>
      ["Error fetching commits for " ++ Repository.Name (fst c)
       ++ ": " ++ Error err ++ String "010" ""]
  end.

(** The state the outer loop leaves when it runs to its end. *)
Definition looped (st : State) (calls : list call) : State :=
  make_State
    (sent st ++ map (fun c => commits_request (Repository.FullName (fst c))) calls)%list
    (stdout st ++ concat (map log_line calls))%list
    (written st).

(** The reply the outcomes of a run's calls determine: a failed listing
    is a 500 with the error's text, a hash that is too short a bare 500,
    and otherwise a 200 with the collection. *)
Definition reply_of (listed : result (slice Repository.t)) (calls : list call)
  : HTTPReply :=
  match listed with
  | Err err =>
      make_HTTPReply StatusInternalServerError (JSONObject [("error", Error err)])
  | Ok _ =>
      if forallb shas_long calls
      then make_HTTPReply StatusOK (Marshal (Commits (extend nil_slice (history calls))))
      else make_HTTPReply StatusInternalServerError NoBody
  end.

(** The entries an HTTP body carries. *)
Definition entries (b : wire) : list CommitHistory :=
  match b with
  | JSONArray l => l
  | _ => []
  end.

(** *** Shapes of JSON bodies, for the decoder *)

Definition string_or_null (j : json) : bool :=
  match j with
  | JStr _ | JNull => true
  | _ => false
  end.

Definition time_or_null (j : json) : bool :=
  match j with
  | JNull => true
  | _ => is_ok (timeUnmarshalJSON j)
  end.

(** An object, or [null], each of whose members either selects no field or
    has a value its field accepts. *)
Definition object_of {F} (tag : F -> string) (fields : list F)
    (accepts : F -> json -> bool) (j : json) : bool :=
  match j with
  | JObj ms =>
      forallb (fun m => match find_field tag fields (fst m) with
                        | Some f => accepts f (snd m)
                        | None => true
                        end) ms
  | JNull => true
  | _ => false
  end.

Definition repository_object : json -> bool :=
  object_of repository_tag repository_fields (fun _ => string_or_null).

Definition author_object : json -> bool :=
  object_of author_tag author_fields
    (fun f => match f with
              | A_date => time_or_null
              | _ => string_or_null
              end).

Definition inner_object : json -> bool :=
  object_of inner_tag inner_fields
    (fun f => match f with
              | I_message => string_or_null
              | I_author => author_object
              end).

Definition commit_object : json -> bool :=
  object_of commit_tag commit_fields
    (fun f => match f with
              | C_commit => inner_object
              | _ => string_or_null
              end).

(** A JSON array of such objects. *)
Definition array_of (elem : json -> bool) (j : json) : bool :=
  match j with
  | JArr items => forallb elem items
  | _ => false
  end.

(** No member of the object selects field [f]. *)
Definition lacks {F} (tag : F -> string) (fields : list F)
    (same : F -> F -> bool) (f : F) (ms : list (string * json)) : bool :=
  forallb (fun m => match find_field tag fields (fst m) with
                    | Some g => negb (same f g)
                    | None => true
                    end) ms.

(** The key selects some field. *)
Definition known {F} (tag : F -> string) (fields : list F) (key : string) : bool :=
  match find_field tag fields key with
  | Some _ => true
  | None => false
  end.

(** Equality of field names. *)
Definition same_repository_field (f g : repository_field) : bool :=
  match f, g with
  | R_name, R_name | R_full_name, R_full_name
  | R_description, R_description | R_html_url, R_html_url => true
  | _, _ => false
  end.

Definition same_commit_field (f g : commit_field) : bool :=
  match f, g with
  | C_sha, C_sha | C_commit, C_commit | C_html_url, C_html_url => true
  | _, _ => false
  end.

Definition same_inner_field (f g : inner_field) : bool :=
  match f, g with
  | I_message, I_message | I_author, I_author => true
  | _, _ => false
  end.

Definition same_author_field (f g : author_field) : bool :=
  match f, g with
  | A_name, A_name | A_email, A_email | A_date, A_date => true
  | _, _ => false
  end.

(** Decoding [v] into a struct writes nothing into its field [f]: [v] is an
    object no member of which selects [f], or it is no object, which leaves
    the whole struct as it was. *)
Definition writes_no {F} (tag : F -> string) (fields : list F)
    (same : F -> F -> bool) (f : F) (v : json) : bool :=
  match v with
  | JObj ms => lacks tag fields same f ms
  | _ => true
  end.

(** Every member of the object that selects field [f] has a value of which
    [inside] holds. *)
Definition through {F} (tag : F -> string) (fields : list F)
    (same : F -> F -> bool) (f : F) (inside : json -> bool)
    (ms : list (string * json)) : bool :=
  forallb (fun m => match find_field tag fields (fst m) with
                    | Some g => if same f g then inside (snd m) else true
                    | None => true
                    end) ms.

(** The same of a value: of its members when it is an object, and true of
    anything else. *)
Definition within {F} (tag : F -> string) (fields : list F)
    (same : F -> F -> bool) (f : F) (inside : json -> bool) (v : json) : bool :=
  match v with
  | JObj ms => through tag fields same f inside ms
  | _ => true
  end.

(** Nothing in a commit object gives the commit a message: it has no
    [commit] member, or each [commit] member it has is an object without a
    [message] member (or no object). *)
Definition message_unset (ms : list (string * json)) : bool :=
  through commit_tag commit_fields same_commit_field C_commit
    (writes_no inner_tag inner_fields same_inner_field I_message) ms.

(** Nothing in a commit object gives the author's field [f]: along
    [commit] and then [author], no object has a member that selects [f]. *)
Definition author_unset (f : author_field) (ms : list (string * json)) : bool :=
  through commit_tag commit_fields same_commit_field C_commit
    (within inner_tag inner_fields same_inner_field I_author
       (writes_no author_tag author_fields same_author_field f)) ms.

(** The string a field of a [Repository] holds. *)
Definition repository_get (f : repository_field) (r : Repository.t) : string :=
  match f with
  | R_name => Repository.Name r
  | R_full_name => Repository.FullName r
  | R_description => Repository.Description r
  | R_html_url => Repository.HTMLURL r
  end.

(** How a step of the decoder behaves towards the saved error: [clean]
    steps give their value and leave it alone, [faulty] steps stop or leave
    an error saved, and every step [keeps] an error that is saved. *)
Definition clean {A} (d : Dec A) (a : A) : Prop :=
  forall saved, d saved = Ok (a, saved).

Definition faulty {A} (d : Dec A) : Prop :=
  forall saved, match d saved with
                | Ok (_, None) => False
                | _ => True
                end.

Definition keeps {A} (d : Dec A) : Prop :=
  forall e, match d (Some e) with
            | Ok (_, None) => False
            | _ => True
            end.

(** [decides d b]: the step [d] is clean when [b] and faulty when not. *)
Definition decides {A} (d : Dec A) (b : bool) : Prop :=
  (b = true -> exists a, clean d a) /\ (b = false -> faulty d) /\ keeps d.

Definition is_null (j : json) : bool :=
  match j with
  | JNull => true
  | _ => false
  end.

End Vocabulary.

(* ===================================================================== *)
(** ** Sample runs *)
(* ===================================================================== *)

Module Runs.
#[local] Existing Instance Sample.lib.

Definition dq : string := String (ascii_of_nat 34) EmptyString.

(** The text of a JSON value, for the bodies of the sample responses. *)
Fixpoint print (j : json) : string :=
  match j with
  | JNull => "null"
  | JBool true => "true"
  | JBool false => "false"
  | JNum lit => lit
  | JStr s => dq ++ s ++ dq
  | JArr items => "[" ++ String.concat "," (map print items) ++ "]"
  | JObj ms =>
      "{" ++ String.concat ","
               (map (fun m => let '(k, v) := m in dq ++ k ++ dq ++ ":" ++ print v) ms)
          ++ "}"
  end.

Definition ok (j : json) : reply :=
  Replied (make_Response 200 "200 OK" (print j) (Ok j)).

Definition not_found : reply :=
  let j := JObj [("message", JStr "Not Found")] in
  Replied (make_Response 404 "404 Not Found" (print j) (Ok j)).

(** An upstream that answers by URL, and with 404 where it knows none. *)
Definition serving (routes : list (string * reply)) : World :=
  fun _ req =>
    match find (fun r => String.eqb (fst r) (URL req)) routes with
    | Some r => snd r
    | None => not_found
    end.

Definition repos_url : string := URL listing_request.

Definition commits_url (full_name : string) : string :=
  URL (commits_request full_name).

Definition repo_json (name full_name : string) : json :=
  JObj [("id", JNum "1296269"); ("name", JStr name); ("full_name", JStr full_name);
        ("private", JBool false)].

Definition commit_json (sha message date : string) : json :=
  JObj [("sha", JStr sha);
        ("commit", JObj [("author", JObj [("name", JStr "suda"); ("date", JStr date)]);
                         ("message", JStr message)]);
        ("parents", JArr [])].

(** Section 8 of the specification: two repositories, one commit in the
    first, a 404 for the commits of the second. *)
Definition scenario : World :=
  serving
    [(repos_url, ok (JArr [repo_json "a" "u/a"; repo_json "b" "u/b"]));
     (commits_url "u/a",
      ok (JArr [commit_json "1234567890abcdef1234567890abcdef12345678" "init"
                  "2024-01-15T10:30:00Z"]))].

(** The listing call times out. *)
Definition timeout : World :=
  fun _ _ => NoResponse (ClientError "context deadline exceeded").

(** The account has no public repository. *)
Definition no_repositories : World :=
  serving [(repos_url, ok (JArr []))].

(** One repository, and for it a commit whose hash has three bytes. *)
Definition abc_commits : json := JArr [JObj [("sha", JStr "abc")]].

Definition short_sha : World :=
  serving
    [(repos_url, ok (JArr [JObj [("name", JStr "a"); ("full_name", JStr "u/a")]]));
     (commits_url "u/a", ok abc_commits)].

(** A listing answered with 201 and a well-formed body. *)
Definition created : Response :=
  make_Response 201 "201 Created" "[]" (Ok (JArr [])).

Definition answers_201 : World := fun _ _ => Replied created.

(** Two repositories whose commits interleave in time. *)
Definition interleaved : World :=
  serving
    [(repos_url, ok (JArr [repo_json "a" "u/a"; repo_json "b" "u/b"]));
     (commits_url "u/a",
      ok (JArr [commit_json "aaaaaaa1aaaaaaaaaaaaaaaaaaaaaaaaaaaaaaaa" "a2"
                  "2024-03-01T00:00:00Z";
                commit_json "aaaaaaa0aaaaaaaaaaaaaaaaaaaaaaaaaaaaaaaa" "a1"
                  "2024-01-01T00:00:00Z"]));
     (commits_url "u/b",
      ok (JArr [commit_json "bbbbbbb0bbbbbbbbbbbbbbbbbbbbbbbbbbbbbbbb" "b1"
                  "2024-02-01T00:00:00Z"]))].

(** The upstream of the scenario, unreachable from its sixth request on. *)
Definition scenario_then_down : World :=
  fun n req =>
    if n <? 5 then scenario n req else NoResponse (ClientError "connection refused").

(** A server that has already sent, printed and written something. *)
Definition busy : State :=
  make_State [listing_request; commits_request "u/a"] ["started"]
    (Some (200%Z, gin_H [("status", "ok")])).

(** The repositories and the commit of the scenario, decoded. *)
Definition repo_a : Repository.t := Repository.make "a" "u/a" "" "".
Definition repo_b : Repository.t := Repository.make "b" "u/b" "" "".

Definition commit_init : Commit.t :=
  Commit.make "1234567890abcdef1234567890abcdef12345678"
    (Commit.make_commit "init" (Commit.make_author "suda" "" "2024-01-15T10:30:00Z"))
    "".

(** A listing with an unknown member and without three of the four
    fields. *)
Definition sparse_listing : json :=
  JArr [JObj [("id", JNum "1296269"); ("name", JStr "a")]; JObj []].

(** Commits with parts of the nesting missing: an author without email and
    date and no message; an author that is [null]; an empty [commit]; no
    [commit] at all; and a [null] element. *)
Definition partial_commits : list json :=
  [JObj [("sha", JStr "1111111");
         ("commit", JObj [("author", JObj [("name", JStr "suda")])])];
   JObj [("sha", JStr "2222222");
         ("commit", JObj [("message", JStr "second"); ("author", JNull)])];
   JObj [("sha", JStr "3333333"); ("commit", JObj [])];
   JObj [("sha", JStr "4444444")];
   JNull].

End Runs.

(* ===================================================================== *)
(** ** More vocabulary: the trace of a run *)
(* ===================================================================== *)

Section Trace_vocabulary.
Context `{L : GoLib}.

(** The request of the commit call a repository costs. *)
Definition request_of (repo : Repository.t) : Request :=
  commits_request (Repository.FullName repo).

(** How many repositories the outer loop reaches: all of them, or those up
    to and including the first whose commits hold a hash that is too
    short. *)
Fixpoint visited (calls : list call) : nat :=
  match calls with
  | [] => 0
  | c :: rest => if shas_long c then S (visited rest) else 1
  end.

(** What the handler reads of a repository: its name and its full name. *)
Definition same_to_handler (r1 r2 : Repository.t) : Prop :=
  Repository.Name r1 = Repository.Name r2
  /\ Repository.FullName r1 = Repository.FullName r2.

(** The commit calls that failed. *)
Definition failed (c : call) : bool := negb (is_ok (snd c)).

End Trace_vocabulary.

(* ===================================================================== *)
(** ** The handler with structured logging *)
(* ===================================================================== *)

(** The second version of the server in the repository logs through
    zerolog instead of printing.  Its three functions are embedded here
    under their own names; an event is kept without its timestamp. *)
Module Logged.

(** zerolog's levels, as far as the handler and the fetchers use them. *)
Inductive Level : Type := DebugLevel | InfoLevel | WarnLevel | ErrorLevel.

Definition rank (l : Level) : nat :=
  match l with
  | DebugLevel => 0
  | InfoLevel => 1
  | WarnLevel => 2
  | ErrorLevel => 3
  end.

(** A field of an event: [Str(key, value)] or [Int(key, value)]. *)
Inductive Field : Type :=
| Str (key value : string)
| Int (key : string) (value : Z).

Record Event : Type := make_Event {
  level : Level;
  fields : list Field;
  message : string
}.

Definition is_warn (e : Event) : bool :=
  match level e with
  | WarnLevel => true
  | _ => false
  end.

Section Code.
Context `{L : GoLib}.

(** [Err(err)]: the field [error] with the error's text. *)
Definition Err_field (err : error) : Field := Str "error" (Error err).

(** The server's state, and the events written so far. *)
Record Process : Type := make_Process {
  base : State;
  events : list Event
}.

(** The code runs under the global level [setupLogger] chose. *)
Definition LM (A : Type) : Type :=
  Level -> World -> Process -> outcome A * Process.

Definition lret {A} (a : A) : LM A := fun _ _ p => (Done a, p).

Definition lbind {A B} (c : LM A) (k : A -> LM B) : LM B :=
  fun glob w p =>
    match c glob w p with
    | (Done a, p') => k a glob w p'
    | (Panic r, p') => (Panic r, p')
    end.

(** Code that does not log. *)
Definition plain {A} (c : M A) : LM A :=
  fun _ w p =>
    let (o, st) := c w (base p) in (o, make_Process st (events p)).

(** [log.<Level>().<fields>.Msg(message)]: written when the level is at or
    above the global one. *)
Definition emit (lvl : Level) (fs : list Field) (msg : string) : LM unit :=
  fun glob _ p =>
    (Done tt,
     make_Process (base p)
       (events p ++ (if rank glob <=? rank lvl
                     then [make_Event lvl fs msg]
                     else []))%list).

End Code.

Notation "x <== c ;; k" := (lbind c (fun x => k))
  (at level 61, c at next level, right associativity).
Notation "c ;;> k" := (lbind c (fun _ => k))
  (at level 61, right associativity).

Section Handlers.
Context `{L : GoLib}.

(** [func fetchRepositories() ([]Repository, error)] *)
Definition fetchRepositories : LM (result (slice Repository.t)) :=
  let url :=
    githubAPIBase ++ "/users/" ++ username ++ "/repos?type=public&per_page=100" in
  emit DebugLevel [Str "url" url; Str "username" username]
    "Fetching repositories from GitHub API" ;;>
  r <== plain (http_get url) ;;
  match r with
  | NoResponse err => lret (Err err)
  | Replied resp =>
      if negb (StatusCode resp =? StatusOK)%Z then
        emit ErrorLevel
          [Int "status_code" (StatusCode resp); Str "status" (Status resp);
           Str "response_body" (Body resp)]
          "GitHub API returned non-OK status" ;;>
        lret (Err (api_error resp))
      else
        match Decode unmarshal_repositories resp with
        | Err err =>
            emit ErrorLevel [Err_field err]
              "Failed to decode repositories JSON response" ;;>
            lret (Err err)
        | Ok repos =>
            emit InfoLevel [Int "repository_count" (Z.of_nat (len repos))]
              "Successfully fetched repositories" ;;>
            lret (Ok repos)
        end
  end.

(** [func fetchCommits(repoFullName string) ([]Commit, error)] *)
Definition fetchCommits (repoFullName : string) : LM (result (slice Commit.t)) :=
  let url :=
    githubAPIBase ++ "/repos/" ++ repoFullName ++ "/commits?per_page=100" in
  emit DebugLevel [Str "url" url; Str "repository" repoFullName]
    "Fetching commits from GitHub API" ;;>
  r <== plain (http_get url) ;;
  match r with
  | NoResponse err => lret (Err err)
  | Replied resp =>
      if negb (StatusCode resp =? StatusOK)%Z then
        emit ErrorLevel
          [Int "status_code" (StatusCode resp); Str "status" (Status resp);
           Str "repository" repoFullName; Str "response_body" (Body resp)]
          "GitHub API returned non-OK status for commits" ;;>
        lret (Err (api_error resp))
      else
        match Decode unmarshal_commits resp with
        | Err err =>
            emit ErrorLevel [Err_field err; Str "repository" repoFullName]
              "Failed to decode commits JSON response" ;;>
            lret (Err err)
        | Ok commits =>
            emit DebugLevel
              [Str "repository" repoFullName;
               Int "commit_count" (Z.of_nat (len commits))]
              "Successfully fetched commits" ;;>
            lret (Ok commits)
        end
  end.

(** [for _, repo := range repos { ... }]; the inner loop is the one of the
    first version. *)
Fixpoint range_repos (repos : list Repository.t)
    (allCommits : slice CommitHistory) : LM (slice CommitHistory) :=
  match repos with
  | [] => lret allCommits
  | repo :: rest =>
      r <== fetchCommits (Repository.FullName repo) ;;
      match r with
      | Err err =>
          emit WarnLevel
            [Err_field err; Str "repository" (Repository.Name repo);
             Str "full_name" (Repository.FullName repo)]
            "Failed to fetch commits for repository" ;;>
          range_repos rest allCommits
      | Ok commits =>
          emit DebugLevel
            [Str "repository" (Repository.Name repo);
             Int "commit_count" (Z.of_nat (len commits))]
            "Commits fetched for repository" ;;>
          allCommits' <== plain (range_commits repo (elems commits) allCommits) ;;
          range_repos rest allCommits'
      end
  end.

(** [func getGitHistory(c *gin.Context)] *)
Definition getGitHistory : LM unit :=
  emit InfoLevel [] "Fetching git history" ;;>
  r <== fetchRepositories ;;
  match r with
  | Err err =>
      emit ErrorLevel [Err_field err] "Failed to fetch repositories" ;;>
      plain (c_JSON StatusInternalServerError (gin_H [("error", Error err)]))
  | Ok repos =>
      emit InfoLevel [Int "count" (Z.of_nat (len repos))]
        "Repositories fetched successfully" ;;>
      allCommits <== range_repos (elems repos) nil_slice ;;
      emit InfoLevel [Int "total_commits" (Z.of_nat (len allCommits))]
        "Returning git history" ;;>
      plain (c_JSON StatusOK (Commits allCommits))
  end.

(** [GET /api/git-history] on the engine of [gin.Default()]. *)
Definition serve (glob : Level) (w : World) (p : Process) : HTTPReply * Process :=
  match getGitHistory glob w (make_Process (fresh (base p)) (events p)) with
  | (Done _, p') =>
      match written (base p') with
      | Some (code, obj) => (make_HTTPReply code (Marshal obj), p')
      | None => (make_HTTPReply StatusOK NoBody, p')
      end
  | (Panic _, p') => (make_HTTPReply StatusInternalServerError NoBody, p')
  end.

(** The warnings among the events. *)
Definition warnings (evs : list Event) : nat :=
  List.length (filter is_warn evs).

End Handlers.

End Logged.

(* ===================================================================== *)
(** ** More sample runs *)
(* ===================================================================== *)

Module More_runs.
#[local] Existing Instance Sample.lib.

(** The listing is refused with 403 and a message. *)
Definition rate_limited : Response :=
  make_Response 403 "403 Forbidden" "API rate limit exceeded"
    (Err (SyntaxError "invalid character 'A' looking for beginning of value")).

Definition refuses : World := fun _ _ => Replied rate_limited.

(** Three repositories: the first answers, the second holds a commit whose
    hash has three bytes, the third is never reached. *)
Definition stops_at_second : World :=
  Runs.serving
    [(Runs.repos_url,
      Runs.ok (JArr [Runs.repo_json "a" "u/a"; Runs.repo_json "b" "u/b";
                     Runs.repo_json "c" "u/c"]));
     (Runs.commits_url "u/a",
      Runs.ok (JArr [Runs.commit_json "1234567890abcdef1234567890abcdef12345678"
                       "init" "2024-01-15T10:30:00Z"]));
     (Runs.commits_url "u/b", Runs.ok Runs.abc_commits)].

Definition repo_c : Repository.t := Repository.make "c" "u/c" "" "".

(** The scenario's listing with descriptions and URLs filled in. *)
Definition described_json (name full_name : string) : json :=
  JObj [("name", JStr name); ("full_name", JStr full_name);
        ("description", JStr "a description");
        ("html_url", JStr ("https://github.com/" ++ full_name))].

Definition described : World :=
  fun n req =>
    match n with
    | 0 => Runs.ok (JArr [described_json "a" "u/a"; described_json "b" "u/b"])
    | _ => Runs.scenario n req
    end.

Definition described_a : Repository.t :=
  Repository.make "a" "u/a" "a description" "https://github.com/u/a".
Definition described_b : Repository.t :=
  Repository.make "b" "u/b" "a description" "https://github.com/u/b".

(** A listing of two elements that name nothing. *)
Definition nameless : World :=
  fun n _ =>
    match n with
    | 0 => Runs.ok (JArr [JObj []; JNull])
    | _ => Runs.not_found
    end.

(** A process that has logged nothing yet. *)
Definition quiet : Logged.Process := Logged.make_Process boot [].

End More_runs.

(* ===================================================================== *)
(** ** The fetchers *)
(* ===================================================================== *)

Section Fetchers.
Context `{L : GoLib}.

Lemma fetchRepositories_run (w : World) (st : State) :
  fetchRepositories w st =
  (Done (answer unmarshal_repositories (w (List.length (sent st)) listing_request)),
   sending st listing_request).
Proof.
  unfold fetchRepositories, bind, http_get, answer, sending, listing_request.
  destruct (w (List.length (sent st)) _) as [err | resp]; cbn; [reflexivity |].
  destruct (StatusCode resp =? StatusOK)%Z; reflexivity.
Qed.

Lemma fetchCommits_run (name : string) (w : World) (st : State) :
  fetchCommits name w st =
  (Done (answer unmarshal_commits (w (List.length (sent st)) (commits_request name))),
   sending st (commits_request name)).
Proof.
  unfold fetchCommits, bind, http_get, answer, sending, commits_request.
  destruct (w (List.length (sent st)) _) as [err | resp]; cbn; [reflexivity |].
  destruct (StatusCode resp =? StatusOK)%Z; reflexivity.
Qed.

End Fetchers.

(* ===================================================================== *)
(** ** The two loops *)
(* ===================================================================== *)

Section Loops.
Context `{L : GoLib}.

Lemma extend_append {A} (s : slice A) (x : A) (l : list A) :
  extend (append s x) l = extend s (x :: l).
Proof.
  unfold extend, append; destruct l as [| y l]; cbn [elems].
  - reflexivity.
  - now rewrite <- app_assoc.
Qed.

Lemma extend_extend {A} (s : slice A) (l1 l2 : list A) :
  extend (extend s l1) l2 = extend s (l1 ++ l2).
Proof.
  destruct l1 as [| x l1]; [reflexivity |].
  destruct l2 as [| y l2]; cbn [extend elems app].
  - now rewrite app_nil_r.
  - now rewrite <- app_assoc.
Qed.

Lemma elems_extend {A} (s : slice A) (l : list A) :
  elems (extend s l) = (elems s ++ l)%list.
Proof.
  destruct l; cbn [extend elems]; [now rewrite app_nil_r | reflexivity].
Qed.

Lemma newCommitHistory_long (repo : Repository.t) (commit : Commit.t) :
  sha_long commit = true ->
  newCommitHistory repo commit = Done (entry_of repo commit).
Proof.
  unfold sha_long, newCommitHistory, slice_to, entry_of; intros ->; reflexivity.
Qed.

Lemma newCommitHistory_short (repo : Repository.t) (commit : Commit.t) :
  sha_long commit = false ->
  newCommitHistory repo commit = Panic "slice bounds out of range".
Proof.
  unfold sha_long, newCommitHistory, slice_to; intros ->; reflexivity.
Qed.

(** The inner loop appends the commits' entries in order, or panics at the
    first hash that is too short; it touches nothing else. *)
Lemma range_commits_run (repo : Repository.t) (commits : list Commit.t)
    (allCommits : slice CommitHistory) (w : World) (st : State) :
  range_commits repo commits allCommits w st =
  if forallb sha_long commits
  then (Done (extend allCommits (map (entry_of repo) commits)), st)
  else (Panic "slice bounds out of range", st).
Proof.
  revert allCommits.
  induction commits as [| commit rest IH]; intros allCommits; [reflexivity |].
  cbn [range_commits forallb map]; unfold bind, lift.
  destruct (sha_long commit) eqn:E.
  - rewrite (newCommitHistory_long _ _ E), IH; cbn [andb].
    destruct (forallb sha_long rest); [now rewrite extend_append | reflexivity].
  - now rewrite (newCommitHistory_short _ _ E).
Qed.

(** The commit calls of a run depend on the state only through the
    requests already sent. *)
Lemma commit_calls_sent (w : World) (repos : list Repository.t) (st st' : State) :
  sent st = sent st' -> commit_calls w st repos = commit_calls w st' repos.
Proof.
  revert st st'.
  induction repos as [| repo rest IH]; intros st st' E; [reflexivity |].
  cbn [commit_calls]; rewrite !fetchCommits_run, E.
  f_equal; apply IH; unfold sending; cbn [sent]; now rewrite E.
Qed.

Lemma commit_calls_cons (w : World) (st : State) (repo : Repository.t)
    (rest : list Repository.t) :
  commit_calls w st (repo :: rest) =
  (repo, answer unmarshal_commits
           (w (List.length (sent st)) (commits_request (Repository.FullName repo))))
  :: commit_calls w (sending st (commits_request (Repository.FullName repo))) rest.
Proof. cbn [commit_calls]; now rewrite fetchCommits_run. Qed.

Lemma commit_calls_repos (w : World) (st : State) (repos : list Repository.t) :
  map fst (commit_calls w st repos) = repos.
Proof.
  revert st; induction repos as [| repo rest IH]; intros st; [reflexivity |].
  rewrite commit_calls_cons; cbn [map fst]; now rewrite IH.
Qed.

(** The outer loop, when no hash is too short: every repository is asked
    in turn, a failed call prints its line, and the entries of the others
    are appended block after block. *)
Lemma range_repos_done (w : World) (repos : list Repository.t) :
  forall (allCommits : slice CommitHistory) (st : State),
    forallb shas_long (commit_calls w st repos) = true ->
    range_repos repos allCommits w st =
    (Done (extend allCommits (history (commit_calls w st repos))),
     looped st (commit_calls w st repos)).
Proof.
  induction repos as [| repo rest IH]; intros allCommits st Hlong.
  - cbn; unfold ret, looped; cbn; rewrite !app_nil_r; now destruct st.
  - rewrite commit_calls_cons in Hlong |- *.
    cbn [forallb] in Hlong; apply andb_prop in Hlong as [Hhere Hrest].
    cbn [range_repos]; unfold bind at 1; rewrite fetchCommits_run.
    set (req := commits_request (Repository.FullName repo)) in *.
    destruct (answer unmarshal_commits _) as [commits | err] eqn:Ecall.
    + unfold bind at 1; rewrite range_commits_run.
      unfold shas_long in Hhere; cbn [snd] in Hhere; rewrite Hhere.
      rewrite (IH _ _ Hrest), extend_extend.
      unfold history, looped.
      cbn [map concat block log_line fst snd app sent stdout written sending].
      now rewrite <- !app_assoc.
    + unfold bind at 1, Printf at 1.
      cbv beta.
      match goal with
      | |- range_repos rest allCommits w ?s = _ =>
          rewrite (commit_calls_sent w rest (sending st req) s) in Hrest |- *
            by reflexivity;
          rewrite (IH allCommits s Hrest)
      end.
      unfold history, looped.
      cbn [map concat block log_line fst snd app sent stdout written sending].
      now rewrite <- !app_assoc.
Qed.

(** The outer loop, when some hash is too short: it panics. *)
Lemma range_repos_panic (w : World) (repos : list Repository.t) :
  forall (allCommits : slice CommitHistory) (st : State),
    forallb shas_long (commit_calls w st repos) = false ->
    exists st',
      range_repos repos allCommits w st = (Panic "slice bounds out of range", st').
Proof.
  induction repos as [| repo rest IH]; intros allCommits st Hshort.
  - discriminate.
  - rewrite commit_calls_cons in Hshort.
    cbn [forallb] in Hshort.
    cbn [range_repos]; unfold bind at 1; rewrite fetchCommits_run.
    set (req := commits_request (Repository.FullName repo)) in *.
    destruct (answer unmarshal_commits _) as [commits | err] eqn:Ecall.
    + unfold bind at 1; rewrite range_commits_run.
      unfold shas_long at 1 in Hshort; cbn [snd] in Hshort.
      destruct (forallb sha_long (elems commits)); [| eauto].
      apply (IH _ _ Hshort).
    + unfold bind at 1, Printf at 1.
      cbn [andb shas_long snd] in Hshort.
      unfold shas_long at 1 in Hshort; cbn [snd andb] in Hshort.
      cbv beta.
      match goal with
      | |- exists _, range_repos rest allCommits w ?s = _ =>
          rewrite (commit_calls_sent w rest (sending st req) s) in Hshort
            by reflexivity;
          apply (IH allCommits s Hshort)
      end.
Qed.

End Loops.

(* ===================================================================== *)
(** ** The handler and the endpoint *)
(* ===================================================================== *)

Section Endpoint.
Context `{L : GoLib}.

Lemma serve_listing_failed (w : World) (st st1 : State) (err : error) :
  fetchRepositories w (fresh st) = (Done (Err err), st1) ->
  serve w st =
  (make_HTTPReply StatusInternalServerError (JSONObject [("error", Error err)]),
   make_State (sent st ++ [listing_request]) (stdout st)
     (Some (StatusInternalServerError, gin_H [("error", Error err)]))).
Proof.
  intros Hlist.
  pose proof (fetchRepositories_run w (fresh st)) as Hrun.
  rewrite Hlist in Hrun; injection Hrun as Hr Hst.
  unfold serve, getGitHistory, bind; rewrite Hlist.
  unfold c_JSON; cbn [written]; subst st1; reflexivity.
Qed.

Lemma serve_listing_ok (w : World) (st st1 : State) (repos : slice Repository.t) :
  fetchRepositories w (fresh st) = (Done (Ok repos), st1) ->
  forallb shas_long (commit_calls w st1 (elems repos)) = true ->
  serve w st =
  (make_HTTPReply StatusOK
     (Marshal (Commits (extend nil_slice (history (commit_calls w st1 (elems repos)))))),
   make_State
     (sent (looped st1 (commit_calls w st1 (elems repos))))
     (stdout (looped st1 (commit_calls w st1 (elems repos))))
     (Some (StatusOK,
            Commits (extend nil_slice (history (commit_calls w st1 (elems repos))))))).
Proof.
  intros Hlist Hlong.
  unfold serve, getGitHistory, bind; rewrite Hlist.
  rewrite (range_repos_done w (elems repos) nil_slice st1 Hlong).
  unfold c_JSON; cbn [written]; reflexivity.
Qed.

Lemma serve_listing_panic (w : World) (st st1 : State) (repos : slice Repository.t) :
  fetchRepositories w (fresh st) = (Done (Ok repos), st1) ->
  forallb shas_long (commit_calls w st1 (elems repos)) = false ->
  fst (serve w st) = make_HTTPReply StatusInternalServerError NoBody.
Proof.
  intros Hlist Hshort.
  unfold serve, getGitHistory, bind; rewrite Hlist.
  destruct (range_repos_panic w (elems repos) nil_slice st1 Hshort) as [st' ->].
  reflexivity.
Qed.

(** The reply is a function of the outcomes of the calls. *)
Lemma serve_reply (w : World) (st st1 : State) (listed : result (slice Repository.t)) :
  fetchRepositories w (fresh st) = (Done listed, st1) ->
  fst (serve w st) =
  reply_of listed
    (commit_calls w st1 (match listed with Ok repos => elems repos | Err _ => [] end)).
Proof.
  intros Hlist; destruct listed as [repos | err]; cbn [reply_of].
  - destruct (forallb shas_long _) eqn:E.
    + now rewrite (serve_listing_ok w st st1 repos Hlist E).
    + apply (serve_listing_panic w st st1 repos Hlist E).
  - now rewrite (serve_listing_failed w st st1 err Hlist).
Qed.

Lemma history_nil_long (calls : list call) :
  history calls = [] -> forallb shas_long calls = true.
Proof.
  unfold history.
  induction calls as [| c rest IH]; intros Hnil; [reflexivity |].
  cbn [map concat] in Hnil; apply app_eq_nil in Hnil as [Hblock Hrest].
  cbn [forallb]; rewrite (IH Hrest), andb_true_r.
  unfold block in Hblock; unfold shas_long.
  destruct (snd c) as [commits | err]; [| reflexivity].
  apply map_eq_nil in Hblock; now rewrite Hblock.
Qed.

Lemma length_history (calls : list call) :
  List.length (history calls) = list_sum (map returned calls).
Proof.
  unfold history.
  induction calls as [| c rest IH]; [reflexivity |].
  change (list_sum (map returned (c :: rest)))
    with (returned c + list_sum (map returned rest)).
  cbn [map concat]; rewrite length_app, IH; f_equal.
  unfold block, returned, len.
  destruct (snd c); [apply length_map | reflexivity].
Qed.

Lemma entries_Marshal (allCommits : slice CommitHistory) :
  entries (Marshal (Commits allCommits)) = elems allCommits.
Proof. now destruct allCommits. Qed.

End Endpoint.

(* ===================================================================== *)
(** ** The aggregation *)
(* ===================================================================== *)

Section Aggregation.
Context `{L : GoLib}.

Lemma listed_run (w : World) (st : State) (r : result (slice Repository.t)) :
  listed w st = Done r ->
  fetchRepositories w (fresh st) = (Done r, snd (fetchRepositories w (fresh st))).
Proof.
  unfold listed; intros Hl.
  destruct (fetchRepositories w (fresh st)) as [o st1]; cbn in *; now subst.
Qed.

(** Claim C1, evaluated on the code.  When the listing call succeeds and the loop appends no
    entry (no repository, or none whose commit call returned a commit), the
    endpoint answers 200 and the collection it serializes is the [nil]
    slice it was declared as: the body is the JSON [null], not an empty
    array. *)
Theorem empty_history_is_null (w : World) (st : State) (repos : slice Repository.t) :
  listed w st = Done (Ok repos) ->
  history (calls_of w st repos) = [] ->
  fst (serve w st) = make_HTTPReply 200 JSONNull
  /\ written (snd (serve w st)) = Some (200%Z, Commits nil_slice).
Proof.
  intros Hl Hnil; apply listed_run in Hl.
  rewrite (serve_listing_ok w st _ repos Hl (history_nil_long _ Hnil)).
  unfold calls_of in Hnil; rewrite Hnil; split; reflexivity.
Qed.

(** Claim C2.  When the listing call fails, whatever the failure, the endpoint
    answers 500 with the object whose one field [error] holds the error's
    text; the listing request is the only request sent, so no commit is
    fetched, and what the handler wrote is that object, not a collection. *)
Theorem listing_failure_is_500 (w : World) (st : State) (err : error) :
  listed w st = Done (Err err) ->
  fst (serve w st) = make_HTTPReply 500 (JSONObject [("error", Error err)])
  /\ sent (snd (serve w st)) = (sent st ++ [listing_request])%list
  /\ stdout (snd (serve w st)) = stdout st
  /\ written (snd (serve w st)) = Some (500%Z, gin_H [("error", Error err)]).
Proof.
  intros Hl; apply listed_run in Hl.
  rewrite (serve_listing_failed w st _ err Hl); repeat split; reflexivity.
Qed.

(** The three ways the listing call fails: the client's error, a status
    other than 200, a body that does not decode. *)
Lemma listing_failures (w : World) (st : State) (err : error) :
  listed w st = Done (Err err) <->
  w (List.length (sent st)) listing_request = NoResponse err
  \/ (exists resp,
        w (List.length (sent st)) listing_request = Replied resp
        /\ StatusCode resp <> 200%Z /\ err = api_error resp)
  \/ (exists resp,
        w (List.length (sent st)) listing_request = Replied resp
        /\ StatusCode resp = 200%Z /\ Decode unmarshal_repositories resp = Err err).
Proof.
  unfold listed; rewrite fetchRepositories_run; cbn [fst fresh sent].
  unfold answer; destruct (w _ _) as [e | resp].
  - split.
    + intros [= ->]; now left.
    + intros [[= ->] | [(r & [=] & _) | (r & [=] & _)]]; reflexivity.
  - destruct (Z.eqb_spec (StatusCode resp) StatusOK) as [E | E]; unfold StatusOK in E.
    + split.
      * intros [= Hd]; right; right; exists resp; auto.
      * intros [[=] | [(r & [= <-] & Hne & _) | (r & [= <-] & _ & Hd)]];
          [contradiction | now rewrite Hd].
    + split.
      * intros [= <-]; right; left; exists resp; auto.
      * intros [[=] | [(r & [= <-] & _ & ->) | (r & [= <-] & He & _)]];
          [reflexivity | contradiction].
Qed.

(** Claim C3, as amended.  When the listing call succeeds and no commit
    of a successful commit call has a hash shorter than seven bytes, the
    endpoint answers 200 with the collection, however many commit calls
    failed: the body holds the blocks of the calls in listing order, a
    failed call's block is empty, and a successful call's block is the
    entries of its commits. *)
Theorem tolerates_failed_commit_calls (w : World) (st : State)
    (repos : slice Repository.t) :
  listed w st = Done (Ok repos) ->
  forallb shas_long (calls_of w st repos) = true ->
  code (fst (serve w st)) = 200%Z
  /\ (exists allCommits,
        written (snd (serve w st)) = Some (200%Z, Commits allCommits)
        /\ body (fst (serve w st)) = Marshal (Commits allCommits))
  /\ map fst (calls_of w st repos) = elems repos
  /\ entries (body (fst (serve w st))) = concat (map block (calls_of w st repos))
  /\ (forall c err, In c (calls_of w st repos) -> snd c = Err err -> block c = [])
  /\ (forall c commits, In c (calls_of w st repos) -> snd c = Ok commits ->
        block c = map (entry_of (fst c)) (elems commits)).
Proof.
  intros Hl Hlong; apply listed_run in Hl.
  unfold calls_of in *.
  rewrite (serve_listing_ok w st _ repos Hl Hlong); cbn [fst snd code body written].
  split; [reflexivity |].
  split; [eexists; split; reflexivity |].
  split; [apply commit_calls_repos |].
  split; [now rewrite entries_Marshal, elems_extend |].
  split; intros c x _ Hc; unfold block; now rewrite Hc.
Qed.

(** Claim C4, as amended.  When the listing call succeeded, the endpoint
    answers 200 exactly when no commit a successful commit call returned
    has a hash shorter than seven bytes; and in every such run the number
    of entries in the body is the sum, over the commit calls that
    succeeded, of the number of commits each returned. *)
Theorem entry_count (w : World) (st : State) (repos : slice Repository.t) :
  listed w st = Done (Ok repos) ->
  (code (fst (serve w st)) = 200%Z <->
   forallb shas_long (calls_of w st repos) = true)
  /\ (forallb shas_long (calls_of w st repos) = true ->
      List.length (entries (body (fst (serve w st))))
      = list_sum (map returned (calls_of w st repos)))
  /\ (code (fst (serve w st)) = 200%Z ->
      List.length (entries (body (fst (serve w st))))
      = list_sum (map returned (calls_of w st repos))).
Proof.
  intros Hl; apply listed_run in Hl; unfold calls_of.
  destruct (forallb shas_long _) eqn:Hlong.
  - rewrite (serve_listing_ok w st _ repos Hl Hlong); cbn [fst code body].
    assert (Hcount : List.length
                       (entries
                          (Marshal
                             (Commits
                                (extend nil_slice
                                   (history
                                      (commit_calls w (snd (fetchRepositories w (fresh st)))
                                         (elems repos)))))))
                     = list_sum
                         (map returned
                            (commit_calls w (snd (fetchRepositories w (fresh st)))
                               (elems repos)))).
    { rewrite entries_Marshal, elems_extend; cbn [elems app].
      apply length_history. }
    split; [split; reflexivity |]; split; intros _; exact Hcount.
  - rewrite (serve_listing_panic w st _ repos Hl Hlong); cbn [code].
    split; [split |]; [| | split]; intros; discriminate.
Qed.

(** Claim C8.  When the listing call succeeded and the endpoint answers 200, the
    entries of the body are the blocks of the commit calls laid end to end:
    the calls are those of the listed repositories in listing order, and
    each block holds the entries of that call's commits in the order the
    call returned them (and is empty for a failed call).  Nothing is
    sorted. *)
Theorem grouped_by_repository (w : World) (st : State) (repos : slice Repository.t) :
  listed w st = Done (Ok repos) ->
  code (fst (serve w st)) = 200%Z ->
  map fst (calls_of w st repos) = elems repos
  /\ entries (body (fst (serve w st))) = concat (map block (calls_of w st repos))
  /\ (forall c, In c (calls_of w st repos) ->
        block c = match snd c with
                  | Ok commits => map (entry_of (fst c)) (elems commits)
                  | Err _ => []
                  end).
Proof.
  intros Hl Hcode; apply listed_run in Hl; unfold calls_of in *.
  split; [apply commit_calls_repos |].
  split; [| reflexivity].
  destruct (forallb shas_long
              (commit_calls w (snd (fetchRepositories w (fresh st))) (elems repos)))
    eqn:Hlong.
  - rewrite (serve_listing_ok w st _ repos Hl Hlong); cbn [fst body].
    now rewrite entries_Marshal, elems_extend.
  - rewrite (serve_listing_panic w st _ repos Hl Hlong) in Hcode; discriminate.
Qed.

(** Claim C10.  Two runs, against any two upstreams and from any two states, in
    which the listing call has the same outcome and, when it succeeded, the
    commit calls have the same outcomes, answer with the same status and
    the same body. *)
Theorem determined_by_outcomes (w1 w2 : World) (st1 st2 : State) :
  listed w1 st1 = listed w2 st2 ->
  (forall repos, listed w1 st1 = Done (Ok repos) ->
     calls_of w1 st1 repos = calls_of w2 st2 repos) ->
  fst (serve w1 st1) = fst (serve w2 st2).
Proof.
  intros Hsame Hcalls.
  assert (Hrun : forall w st,
             fetchRepositories w (fresh st) =
             (listed w st, snd (fetchRepositories w (fresh st)))).
  { intros w st; unfold listed; now destruct (fetchRepositories w (fresh st)). }
  assert (Hdone : forall w st, exists r, listed w st = Done r).
  { intros w st; unfold listed; rewrite fetchRepositories_run; cbn [fst]; eauto. }
  destruct (Hdone w1 st1) as [r Hr1].
  assert (Hr2 : listed w2 st2 = Done r) by now rewrite <- Hsame.
  pose proof (Hrun w1 st1) as H1; rewrite Hr1 in H1.
  pose proof (Hrun w2 st2) as H2; rewrite Hr2 in H2.
  rewrite (serve_reply w1 st1 _ r H1), (serve_reply w2 st2 _ r H2).
  destruct r as [repos | err]; [| reflexivity].
  specialize (Hcalls repos Hr1); unfold calls_of in Hcalls; now rewrite Hcalls.
Qed.

End Aggregation.

(* ===================================================================== *)
(** ** The short hash *)
(* ===================================================================== *)

Lemma length_substring_0 (n : nat) (s : string) :
  n <= String.length s -> String.length (substring 0 n s) = n.
Proof.
  revert s; induction n as [| n IH]; intros s Hn.
  - now destruct s.
  - destruct s as [| c s]; cbn in Hn |- *; [lia |].
    now rewrite IH by lia.
Qed.

Lemma prefix_substring_0 (n : nat) (s : string) :
  prefix (substring 0 n s) s = true.
Proof.
  revert s; induction n as [| n IH]; intros s.
  - now destruct s.
  - destruct s as [| c s]; cbn; [reflexivity |].
    destruct (ascii_dec c c); [apply IH | contradiction].
Qed.

Section Short_hash.
Context `{L : GoLib}.

(** Claim C6.  From a commit whose hash has seven bytes or more the entry is
    built, its [commit_sha] has exactly seven bytes, and it is the prefix
    of the hash that [substring 0 7] cuts. *)
Theorem short_hash_is_prefix (repo : Repository.t) (commit : Commit.t) :
  7 <= String.length (Commit.SHA commit) ->
  exists entry,
    newCommitHistory repo commit = Done entry
    /\ String.length (CommitSHA entry) = 7
    /\ prefix (CommitSHA entry) (Commit.SHA commit) = true
    /\ CommitSHA entry = substring 0 7 (Commit.SHA commit).
Proof.
  intros Hlong; exists (entry_of repo commit).
  split; [| cbn [entry_of CommitSHA]; repeat split].
  - apply newCommitHistory_long; unfold sha_long; now apply Nat.leb_le.
  - now apply length_substring_0.
  - apply prefix_substring_0.
Qed.

(** Claim C7.  Building the entry is not total: it panics on every commit whose
    hash has fewer than seven bytes; such commits are decodable (an array
    of one object whose [sha] is [abc] gives one); and a run that lists one
    repository and fetches that body for it panics, which the endpoint
    answers with a bare 500. *)
Theorem short_hash_faults :
  (forall (repo : Repository.t) (commit : Commit.t),
      String.length (Commit.SHA commit) < 7 ->
      newCommitHistory repo commit = Panic "slice bounds out of range")
  /\ (exists (j : json) (commit : Commit.t),
        unmarshal_commits j = Ok (make_slice [commit])
        /\ String.length (Commit.SHA commit) < 7)
  /\ (exists (w : World) (repo : Repository.t) (commits : slice Commit.t),
        listed w boot = Done (Ok (make_slice [repo]))
        /\ calls_of w boot (make_slice [repo]) = [(repo, Ok commits)]
        /\ fst (getGitHistory w boot) = Panic "slice bounds out of range"
        /\ fst (serve w boot) = make_HTTPReply 500 NoBody).
Proof.
  split; [| split].
  - intros repo commit Hshort; apply newCommitHistory_short.
    unfold sha_long; apply Nat.leb_gt; lia.
  - exists Runs.abc_commits, (Commit.make "abc" Commit.zero_commit "").
    split; [reflexivity | cbn; lia].
  - exists Runs.short_sha, (Repository.make "a" "u/a" "" ""),
           (make_slice [Commit.make "abc" Commit.zero_commit ""]).
    repeat split; reflexivity.
Qed.

End Short_hash.

(* ===================================================================== *)
(** ** Status codes *)
(* ===================================================================== *)

Section Status.
Context `{L : GoLib}.

Lemma answer_replied {A} (unmarshal : json -> result A) (resp : Response) :
  (StatusCode resp = 200%Z ->
   answer unmarshal (Replied resp) = Decode unmarshal resp)
  /\ (StatusCode resp <> 200%Z ->
      answer unmarshal (Replied resp) =
      Err (ErrorString ("GitHub API error: " ++ Status resp ++ " - " ++ Body resp)))
  /\ ((exists err, answer unmarshal (Replied resp) = Err err) <->
      StatusCode resp <> 200%Z \/ exists err, Decode unmarshal resp = Err err).
Proof.
  unfold answer, api_error.
  destruct (Z.eqb_spec (StatusCode resp) StatusOK) as [E | E]; unfold StatusOK in E.
  - split; [reflexivity |]; split; [contradiction |].
    split; [intros [err He]; right; eauto | intros [Hne | He]; [contradiction | exact He]].
  - split; [contradiction |]; split; [reflexivity |].
    split; [now left | eauto].
Qed.

(** Claim C5, as amended.  For a call of either fetcher that gets a
    response: with status 200 the fetcher returns what decoding the body
    gives; with any other status, 201 to 299 included, it returns the error
    whose text is [GitHub API error: ], the status line, [ - ] and the raw
    body; and it returns an error exactly when the status is not 200 or
    decoding fails. *)
Theorem success_is_status_200 (w : World) (st : State) (name : string)
    (resp : Response) :
  (w (List.length (sent st)) listing_request = Replied resp ->
   (StatusCode resp = 200%Z ->
    fst (fetchRepositories w st) = Done (Decode unmarshal_repositories resp))
   /\ (StatusCode resp <> 200%Z ->
       exists err,
         fst (fetchRepositories w st) = Done (Err err)
         /\ Error err = "GitHub API error: " ++ Status resp ++ " - " ++ Body resp)
   /\ ((exists err, fst (fetchRepositories w st) = Done (Err err)) <->
       StatusCode resp <> 200%Z
       \/ exists err, Decode unmarshal_repositories resp = Err err))
  /\ (w (List.length (sent st)) (commits_request name) = Replied resp ->
      (StatusCode resp = 200%Z ->
       fst (fetchCommits name w st) = Done (Decode unmarshal_commits resp))
      /\ (StatusCode resp <> 200%Z ->
          exists err,
            fst (fetchCommits name w st) = Done (Err err)
            /\ Error err = "GitHub API error: " ++ Status resp ++ " - " ++ Body resp)
      /\ ((exists err, fst (fetchCommits name w st) = Done (Err err)) <->
          StatusCode resp <> 200%Z
          \/ exists err, Decode unmarshal_commits resp = Err err)).
Proof.
  split; intros Hw.
  - rewrite fetchRepositories_run, Hw; cbn [fst].
    destruct (answer_replied unmarshal_repositories resp) as (H200 & Hnot & Hiff).
    split; [intros E; now rewrite (H200 E) |].
    split; [intros E; rewrite (Hnot E); eexists; split; reflexivity |].
    rewrite <- Hiff; split; intros [err He]; exists err; congruence.
  - rewrite fetchCommits_run, Hw; cbn [fst].
    destruct (answer_replied unmarshal_commits resp) as (H200 & Hnot & Hiff).
    split; [intros E; now rewrite (H200 E) |].
    split; [intros E; rewrite (Hnot E); eexists; split; reflexivity |].
    rewrite <- Hiff; split; intros [err He]; exists err; congruence.
Qed.

End Status.

(* ===================================================================== *)
(** ** The decoder *)
(* ===================================================================== *)

Section Decoder.
Context `{L : GoLib}.

Lemma decides_ret {A} (a : A) : decides (dec_ret a) true.
Proof.
  split; [intros _; exists a; intros saved; reflexivity |].
  split; [discriminate | intros e; exact I].
Qed.

Lemma decides_saveError {A} (e : error) (cur : A) : decides (saveError e cur) false.
Proof.
  split; [discriminate |].
  split; [intros _ saved; now destruct saved | intros e'; exact I].
Qed.

Lemma decides_stop {A} (e : error) : decides (@dec_stop A e) false.
Proof.
  split; [discriminate |].
  split; [intros _ saved; exact I | intros e'; exact I].
Qed.

Lemma decides_ext {A} (d : Dec A) (b b' : bool) :
  decides d b -> b = b' -> decides d b'.
Proof. now intros Hd <-. Qed.

Lemma decides_bind {A B} (d : Dec A) (k : A -> Dec B) (b1 b2 : bool) :
  decides d b1 -> (forall a, decides (k a) b2) -> decides (dec_bind d k) (b1 && b2).
Proof.
  intros (Hc & Hf & Hk) Hcont; unfold dec_bind.
  split; [| split].
  - intros Hb; apply andb_prop in Hb as [-> ->].
    destruct (Hc eq_refl) as [a Ha].
    destruct (Hcont a) as (Hc2 & _ & _); destruct (Hc2 eq_refl) as [b Hb].
    exists b; intros saved; now rewrite Ha, Hb.
  - intros Hb saved; destruct b1.
    + cbn in Hb; subst b2; destruct (Hc eq_refl) as [a Ha]; rewrite Ha.
      destruct (Hcont a) as (_ & Hf2 & _); apply (Hf2 eq_refl).
    + specialize (Hf eq_refl saved).
      destruct (d saved) as [[a [e |]] | e]; [| contradiction | exact I].
      destruct (Hcont a) as (_ & _ & Hk2); apply Hk2.
  - intros e; specialize (Hk e).
    destruct (d (Some e)) as [[a [e' |]] | e']; [| contradiction | exact I].
    destruct (Hcont a) as (_ & _ & Hk2); apply Hk2.
Qed.

Lemma decides_string (path : string) (j : json) (cur : string) :
  decides (dec_string path j cur) (string_or_null j).
Proof.
  destruct j; cbn [dec_string string_or_null];
    first [apply decides_ret | apply decides_saveError].
Qed.

Lemma decides_time (j : json) (cur : Time) :
  decides (dec_time j cur) (time_or_null j).
Proof.
  destruct j; cbn [dec_time time_or_null]; try apply decides_ret;
    destruct (timeUnmarshalJSON _); cbn [is_ok];
    first [apply decides_ret | apply decides_stop].
Qed.

Lemma decides_members {A} (field : string -> json -> A -> Dec A)
    (accepts : string * json -> bool) :
  (forall key v cur, decides (field key v cur) (accepts (key, v))) ->
  forall ms cur, decides (dec_members field ms cur) (forallb accepts ms).
Proof.
  intros Hfield; induction ms as [| [key v] rest IH]; intros cur.
  - apply decides_ret.
  - cbn [dec_members forallb]; apply decides_bind; [apply Hfield | apply IH].
Qed.

Lemma decides_struct {A F} (tag : F -> string) (fields : list F)
    (accepts : F -> json -> bool) (path : string)
    (field : string -> json -> A -> Dec A) :
  (forall key v cur,
      decides (field key v cur)
        (match find_field tag fields key with
         | Some f => accepts f v
         | None => true
         end)) ->
  forall j cur, decides (dec_struct path field j cur) (object_of tag fields accepts j).
Proof.
  intros Hfield j cur; destruct j; cbn [dec_struct object_of];
    try apply decides_saveError; try apply decides_ret.
  apply (decides_members field
           (fun m => match find_field tag fields (fst m) with
                     | Some f => accepts f (snd m)
                     | None => true
                     end)).
  intros key v c; apply Hfield.
Qed.

Lemma decides_elems {A} (zero : A) (elem : json -> A -> Dec A)
    (accepts : json -> bool) :
  (forall j cur, decides (elem j cur) (accepts j)) ->
  forall items, decides (dec_elems zero elem items) (forallb accepts items).
Proof.
  intros Helem; induction items as [| j rest IH].
  - apply decides_ret.
  - cbn [dec_elems forallb]; apply decides_bind; [apply Helem |].
    intros a; apply (decides_ext _ (forallb accepts rest && true));
      [| apply andb_true_r].
    apply decides_bind; [apply IH | intros l; apply decides_ret].
Qed.

Lemma decides_slice {A} (zero : A) (elem : json -> A -> Dec A)
    (accepts : json -> bool) :
  (forall j cur, decides (elem j cur) (accepts j)) ->
  forall j, decides (dec_slice zero elem j) (is_null j || array_of accepts j).
Proof.
  intros Helem j; destruct j; cbn [dec_slice is_null array_of orb];
    try apply decides_saveError; try apply decides_ret.
  apply (decides_ext _ (forallb accepts items && true)); [| apply andb_true_r].
  apply decides_bind; [now apply decides_elems | intros l; apply decides_ret].
Qed.

Lemma decides_run {A} (d : Dec A) (b : bool) :
  decides d b -> is_ok (dec_run d) = b.
Proof.
  intros (Hc & Hf & _); unfold dec_run; destruct b.
  - destruct (Hc eq_refl) as [a Ha]; now rewrite Ha.
  - specialize (Hf eq_refl None).
    destruct (d None) as [[a [e |]] | e]; [reflexivity | contradiction | reflexivity].
Qed.

Ltac field_step tac :=
  eapply decides_ext;
  [apply decides_bind; [tac | intros ?; apply decides_ret] | apply andb_true_r].

Lemma decides_repository (j : json) (cur : Repository.t) :
  decides (dec_repository j cur) (repository_object j).
Proof.
  apply decides_struct; clear; intros key v [name full_name description html_url].
  unfold dec_repository_field.
  destruct (find_field repository_tag repository_fields key) as [[] |];
    [field_step ltac:(apply decides_string) .. | apply decides_ret].
Qed.

Lemma decides_author (j : json) (cur : Commit.Author_t) :
  decides (dec_struct "commit.author" dec_author_field j cur) (author_object j).
Proof.
  apply decides_struct; clear; intros key v [name email date].
  unfold dec_author_field.
  destruct (find_field author_tag author_fields key) as [[] |];
    [field_step ltac:(apply decides_string) | field_step ltac:(apply decides_string)
    | field_step ltac:(apply decides_time) | apply decides_ret].
Qed.

Lemma decides_inner (j : json) (cur : Commit.Commit_t) :
  decides (dec_struct "commit" dec_inner_field j cur) (inner_object j).
Proof.
  apply decides_struct; clear; intros key v [message author].
  unfold dec_inner_field.
  destruct (find_field inner_tag inner_fields key) as [[] |];
    [field_step ltac:(apply decides_string) | field_step ltac:(apply decides_author)
    | apply decides_ret].
Qed.

Lemma decides_commit (j : json) (cur : Commit.t) :
  decides (dec_commit j cur) (commit_object j).
Proof.
  apply decides_struct; clear; intros key v [sha inner html_url].
  unfold dec_commit_field.
  destruct (find_field commit_tag commit_fields key) as [[] |];
    [field_step ltac:(apply decides_string) | field_step ltac:(apply decides_inner)
    | field_step ltac:(apply decides_string) | apply decides_ret].
Qed.

(** Decoding succeeds exactly on [null] and on arrays of objects whose
    known members have values of the kinds their fields accept. *)
Lemma unmarshal_repositories_ok (j : json) :
  is_ok (unmarshal_repositories j) = is_null j || array_of repository_object j.
Proof.
  apply decides_run, decides_slice; intros; apply decides_repository.
Qed.

Lemma unmarshal_commits_ok (j : json) :
  is_ok (unmarshal_commits j) = is_null j || array_of commit_object j.
Proof.
  apply decides_run, decides_slice; intros; apply decides_commit.
Qed.

Lemma dec_bind_Ok {A B} (d : Dec A) (k : A -> Dec B) (saved saved' : option error)
    (b : B) :
  dec_bind d k saved = Ok (b, saved') ->
  exists a s, d saved = Ok (a, s) /\ k a s = Ok (b, saved').
Proof.
  unfold dec_bind; destruct (d saved) as [[a s] | e]; [eauto | discriminate].
Qed.

(** A member whose key selects no field changes nothing, whatever its
    value. *)
Lemma members_filter {A} (field : string -> json -> A -> Dec A)
    (selected : string -> bool) :
  (forall key v cur, selected key = false -> field key v cur = dec_ret cur) ->
  forall ms cur saved,
    dec_members field ms cur saved =
    dec_members field (filter (fun m => selected (fst m)) ms) cur saved.
Proof.
  intros Hskip; induction ms as [| [key v] rest IH]; intros cur saved; [reflexivity |].
  cbn [dec_members filter fst]; destruct (selected key) eqn:E.
  - cbn [dec_members]; unfold dec_bind.
    destruct (field key v cur saved) as [[a s] | e]; [apply IH | reflexivity].
  - rewrite (Hskip key v cur E); unfold dec_bind, dec_ret; apply IH.
Qed.

(** What no member writes keeps the value it had. *)
Lemma members_untouched {A B} (get : A -> B) (field : string -> json -> A -> Dec A)
    (spares : string -> bool) :
  (forall key v cur saved a saved',
      spares key = true -> field key v cur saved = Ok (a, saved') -> get a = get cur) ->
  forall ms cur saved a saved',
    forallb (fun m => spares (fst m)) ms = true ->
    dec_members field ms cur saved = Ok (a, saved') ->
    get a = get cur.
Proof.
  intros Hfield; induction ms as [| [key v] rest IH]; intros cur saved a saved' Hsp Hdec.
  - injection Hdec as <- _; reflexivity.
  - cbn [forallb fst] in Hsp; apply andb_prop in Hsp as [Hkey Hrest].
    cbn [dec_members] in Hdec; apply dec_bind_Ok in Hdec as (c & s & Hc & Hdec).
    rewrite (IH _ _ _ _ Hrest Hdec); apply (Hfield _ _ _ _ _ _ Hkey Hc).
Qed.

(** The same when what a member spares depends on its value too. *)
Lemma members_preserve {A B} (get : A -> B) (field : string -> json -> A -> Dec A)
    (spares : string * json -> bool) :
  (forall key v cur saved a saved',
      spares (key, v) = true -> field key v cur saved = Ok (a, saved') ->
      get a = get cur) ->
  forall ms cur saved a saved',
    forallb spares ms = true ->
    dec_members field ms cur saved = Ok (a, saved') ->
    get a = get cur.
Proof.
  intros Hfield; induction ms as [| [key v] rest IH]; intros cur saved a saved' Hsp Hdec.
  - injection Hdec as <- _; reflexivity.
  - cbn [forallb] in Hsp; apply andb_prop in Hsp as [Hkey Hrest].
    cbn [dec_members] in Hdec; apply dec_bind_Ok in Hdec as (c & s & Hc & Hdec).
    rewrite (IH _ _ _ _ Hrest Hdec); apply (Hfield _ _ _ _ _ _ Hkey Hc).
Qed.

Lemma dec_elems_each {A} (zero : A) (elem : json -> A -> Dec A) (items : list json) :
  forall saved l saved',
    dec_elems zero elem items saved = Ok (l, saved') ->
    Forall2 (fun j a => exists s s', elem j zero s = Ok (a, s')) items l.
Proof.
  induction items as [| j rest IH]; intros saved l saved' Hdec.
  - injection Hdec as <- _; constructor.
  - cbn [dec_elems] in Hdec.
    apply dec_bind_Ok in Hdec as (a & s & Ha & Hdec).
    apply dec_bind_Ok in Hdec as (l' & s' & Hl & Hdec).
    injection Hdec as <- _; constructor; [eauto | apply (IH _ _ _ Hl)].
Qed.

Lemma dec_run_Ok {A} (d : Dec A) (a : A) :
  dec_run d = Ok a -> d None = Ok (a, None).
Proof.
  unfold dec_run; destruct (d None) as [[a' [e |]] | e]; congruence.
Qed.

Lemma dec_slice_array {A} (zero : A) (elem : json -> A -> Dec A) (items : list json)
    (s : slice A) :
  dec_run (dec_slice zero elem (JArr items)) = Ok s ->
  exists l,
    s = make_slice l
    /\ Forall2 (fun j a => exists s s', elem j zero s = Ok (a, s')) items l.
Proof.
  intros Hrun; apply dec_run_Ok in Hrun; cbn [dec_slice] in Hrun.
  apply dec_bind_Ok in Hrun as (l & s' & Hl & Hrun).
  injection Hrun as <- _; exists l; split; [reflexivity |].
  apply (dec_elems_each _ _ _ _ _ _ Hl).
Qed.

Ltac field_untouched :=
  match goal with
  | H : dec_bind _ _ _ = Ok _ |- _ =>
      apply dec_bind_Ok in H as (? & ? & _ & H); injection H as <- _; reflexivity
  | H : dec_ret _ _ = Ok _ |- _ => injection H as <- _; reflexivity
  end.

Lemma repository_untouched (f : repository_field) (ms : list (string * json))
    (cur r : Repository.t) (saved saved' : option error) :
  lacks repository_tag repository_fields same_repository_field f ms = true ->
  dec_repository (JObj ms) cur saved = Ok (r, saved') ->
  repository_get f r = repository_get f cur.
Proof.
  apply (members_untouched (repository_get f) dec_repository_field
           (fun key => match find_field repository_tag repository_fields key with
                       | Some g => negb (same_repository_field f g)
                       | None => true
                       end)).
  clear; intros key v [name full_name description html_url] saved a saved' Hsp Hdec.
  unfold dec_repository_field in Hdec.
  destruct (find_field repository_tag repository_fields key) as [g |];
    [| field_untouched].
  destruct f, g; try discriminate Hsp; field_untouched.
Qed.

Lemma commit_keeps (ms : list (string * json)) (cur c : Commit.t)
    (saved saved' : option error) :
  dec_commit (JObj ms) cur saved = Ok (c, saved') ->
  (lacks commit_tag commit_fields same_commit_field C_sha ms = true ->
   Commit.SHA c = Commit.SHA cur)
  /\ (lacks commit_tag commit_fields same_commit_field C_commit ms = true ->
      Commit.Commit c = Commit.Commit cur)
  /\ (lacks commit_tag commit_fields same_commit_field C_html_url ms = true ->
      Commit.HTMLURL c = Commit.HTMLURL cur).
Proof.
  intros Hdec; repeat split; intros Hl; revert Hl Hdec.
  - apply (members_untouched Commit.SHA dec_commit_field
             (fun key => match find_field commit_tag commit_fields key with
                         | Some g => negb (same_commit_field C_sha g)
                         | None => true
                         end)).
    clear; intros key v [sha inner html_url] saved a saved' Hsp Hdec.
    unfold dec_commit_field in Hdec.
    destruct (find_field commit_tag commit_fields key) as [[] |];
      try discriminate Hsp; field_untouched.
  - apply (members_untouched Commit.Commit dec_commit_field
             (fun key => match find_field commit_tag commit_fields key with
                         | Some g => negb (same_commit_field C_commit g)
                         | None => true
                         end)).
    clear; intros key v [sha inner html_url] saved a saved' Hsp Hdec.
    unfold dec_commit_field in Hdec.
    destruct (find_field commit_tag commit_fields key) as [[] |];
      try discriminate Hsp; field_untouched.
  - apply (members_untouched Commit.HTMLURL dec_commit_field
             (fun key => match find_field commit_tag commit_fields key with
                         | Some g => negb (same_commit_field C_html_url g)
                         | None => true
                         end)).
    clear; intros key v [sha inner html_url] saved a saved' Hsp Hdec.
    unfold dec_commit_field in Hdec.
    destruct (find_field commit_tag commit_fields key) as [[] |];
      try discriminate Hsp; field_untouched.
Qed.

Lemma inner_keeps (ms : list (string * json)) (cur c : Commit.Commit_t)
    (saved saved' : option error) :
  dec_struct "commit" dec_inner_field (JObj ms) cur saved = Ok (c, saved') ->
  (lacks inner_tag inner_fields same_inner_field I_message ms = true ->
   Commit.Message c = Commit.Message cur)
  /\ (lacks inner_tag inner_fields same_inner_field I_author ms = true ->
      Commit.Author c = Commit.Author cur).
Proof.
  intros Hdec; repeat split; intros Hl; revert Hl Hdec.
  - apply (members_untouched Commit.Message dec_inner_field
             (fun key => match find_field inner_tag inner_fields key with
                         | Some g => negb (same_inner_field I_message g)
                         | None => true
                         end)).
    clear; intros key v [message author] saved a saved' Hsp Hdec.
    unfold dec_inner_field in Hdec.
    destruct (find_field inner_tag inner_fields key) as [[] |];
      try discriminate Hsp; field_untouched.
  - apply (members_untouched Commit.Author dec_inner_field
             (fun key => match find_field inner_tag inner_fields key with
                         | Some g => negb (same_inner_field I_author g)
                         | None => true
                         end)).
    clear; intros key v [message author] saved a saved' Hsp Hdec.
    unfold dec_inner_field in Hdec.
    destruct (find_field inner_tag inner_fields key) as [[] |];
      try discriminate Hsp; field_untouched.
Qed.

Lemma author_keeps (ms : list (string * json)) (cur a : Commit.Author_t)
    (saved saved' : option error) :
  dec_struct "commit.author" dec_author_field (JObj ms) cur saved = Ok (a, saved') ->
  (lacks author_tag author_fields same_author_field A_name ms = true ->
   Commit.Name a = Commit.Name cur)
  /\ (lacks author_tag author_fields same_author_field A_email ms = true ->
      Commit.Email a = Commit.Email cur)
  /\ (lacks author_tag author_fields same_author_field A_date ms = true ->
      Commit.Date a = Commit.Date cur).
Proof.
  intros Hdec; repeat split; intros Hl; revert Hl Hdec.
  - apply (members_untouched Commit.Name dec_author_field
             (fun key => match find_field author_tag author_fields key with
                         | Some g => negb (same_author_field A_name g)
                         | None => true
                         end)).
    clear; intros key v [name email date] saved a saved' Hsp Hdec.
    unfold dec_author_field in Hdec.
    destruct (find_field author_tag author_fields key) as [[] |];
      try discriminate Hsp; field_untouched.
  - apply (members_untouched Commit.Email dec_author_field
             (fun key => match find_field author_tag author_fields key with
                         | Some g => negb (same_author_field A_email g)
                         | None => true
                         end)).
    clear; intros key v [name email date] saved a saved' Hsp Hdec.
    unfold dec_author_field in Hdec.
    destruct (find_field author_tag author_fields key) as [[] |];
      try discriminate Hsp; field_untouched.
  - apply (members_untouched Commit.Date dec_author_field
             (fun key => match find_field author_tag author_fields key with
                         | Some g => negb (same_author_field A_date g)
                         | None => true
                         end)).
    clear; intros key v [name email date] saved a saved' Hsp Hdec.
    unfold dec_author_field in Hdec.
    destruct (find_field author_tag author_fields key) as [[] |];
      try discriminate Hsp; field_untouched.
Qed.

(** A value that is no object leaves the struct it is decoded into as it
    was. *)
Ltac struct_left_alone :=
  match goal with
  | H : dec_struct _ _ _ _ _ = Ok _ |- _ =>
      cbn [dec_struct] in H; unfold saveError, dec_ret in H;
      injection H as <- _; reflexivity
  end.

(** Through the nesting: what [author] is decoded from writes no field that
    it has no member for. *)
Lemma author_value_keeps (f : author_field) (v : json) (cur a : Commit.Author_t)
    (saved saved' : option error) :
  dec_struct "commit.author" dec_author_field v cur saved = Ok (a, saved') ->
  writes_no author_tag author_fields same_author_field f v = true ->
  match f with
  | A_name => Commit.Name a = Commit.Name cur
  | A_email => Commit.Email a = Commit.Email cur
  | A_date => Commit.Date a = Commit.Date cur
  end.
Proof.
  intros Hdec Hno; destruct v as [| b | lit | s | items | ms];
    try (destruct f; struct_left_alone).
  destruct (author_keeps ms cur a _ _ Hdec) as (Hname & Hemail & Hdate).
  destruct f; auto.
Qed.

Lemma inner_value_keeps (v : json) (cur c : Commit.Commit_t)
    (saved saved' : option error) :
  dec_struct "commit" dec_inner_field v cur saved = Ok (c, saved') ->
  writes_no inner_tag inner_fields same_inner_field I_message v = true ->
  Commit.Message c = Commit.Message cur.
Proof.
  intros Hdec Hno; destruct v as [| b | lit | s | items | ms];
    try struct_left_alone.
  now apply (inner_keeps ms cur c _ _ Hdec).
Qed.

(** What a [commit] value leaves of the author, given what the [author]
    values inside it leave. *)
Lemma inner_value_author {B} (get : Commit.Author_t -> B) (inside : json -> bool) :
  (forall v cur a saved saved',
      dec_struct "commit.author" dec_author_field v cur saved = Ok (a, saved') ->
      inside v = true -> get a = get cur) ->
  forall v cur c saved saved',
    dec_struct "commit" dec_inner_field v cur saved = Ok (c, saved') ->
    within inner_tag inner_fields same_inner_field I_author inside v = true ->
    get (Commit.Author c) = get (Commit.Author cur).
Proof.
  intros Hauthor v cur c saved saved' Hdec Hin.
  destruct v as [| b | lit | s | items | ms]; try struct_left_alone.
  cbn [dec_struct] in Hdec; cbn [within] in Hin; unfold through in Hin.
  revert Hin Hdec.
  apply (members_preserve (fun c => get (Commit.Author c)) dec_inner_field
           (fun m => match find_field inner_tag inner_fields (fst m) with
                     | Some g => if same_inner_field I_author g then inside (snd m)
                                 else true
                     | None => true
                     end)).
  clear - Hauthor; intros key v [message author] saved a saved' Hsp Hdec.
  cbn [fst snd] in Hsp; unfold dec_inner_field in Hdec.
  destruct (find_field inner_tag inner_fields key) as [[] |];
    [field_untouched | | field_untouched].
  cbn [same_inner_field] in Hsp.
  apply dec_bind_Ok in Hdec as (a' & s & Ha & Hdec); injection Hdec as <- _.
  cbn [Commit.Author]; apply (Hauthor _ _ _ _ _ Ha Hsp).
Qed.

(** What a commit object leaves of the nested [commit], given what the
    [commit] values inside it leave. *)
Lemma commit_value_inner {B} (get : Commit.Commit_t -> B) (inside : json -> bool) :
  (forall v cur c saved saved',
      dec_struct "commit" dec_inner_field v cur saved = Ok (c, saved') ->
      inside v = true -> get c = get cur) ->
  forall ms cur c saved saved',
    dec_commit (JObj ms) cur saved = Ok (c, saved') ->
    through commit_tag commit_fields same_commit_field C_commit inside ms = true ->
    get (Commit.Commit c) = get (Commit.Commit cur).
Proof.
  intros Hinner ms cur c saved saved' Hdec Hin.
  unfold dec_commit in Hdec; cbn [dec_struct] in Hdec; unfold through in Hin.
  revert Hin Hdec.
  apply (members_preserve (fun c => get (Commit.Commit c)) dec_commit_field
           (fun m => match find_field commit_tag commit_fields (fst m) with
                     | Some g => if same_commit_field C_commit g then inside (snd m)
                                 else true
                     | None => true
                     end)).
  clear - Hinner; intros key v [sha inner html_url] saved a saved' Hsp Hdec.
  cbn [fst snd] in Hsp; unfold dec_commit_field in Hdec.
  destruct (find_field commit_tag commit_fields key) as [[] |];
    [field_untouched | | field_untouched | field_untouched].
  cbn [same_commit_field] in Hsp.
  apply dec_bind_Ok in Hdec as (i & s & Hi & Hdec); injection Hdec as <- _.
  cbn [Commit.Commit]; apply (Hinner _ _ _ _ _ Hi Hsp).
Qed.

(** A commit object decoded into the zero commit: what nothing in it gives
    is empty, and the zero time for the date. *)
Lemma commit_object_zero (ms : list (string * json)) (c : Commit.t)
    (saved saved' : option error) :
  dec_commit (JObj ms) Commit.zero saved = Ok (c, saved') ->
  (message_unset ms = true -> Commit.Message (Commit.Commit c) = "")
  /\ (author_unset A_name ms = true ->
      Commit.Name (Commit.Author (Commit.Commit c)) = "")
  /\ (author_unset A_email ms = true ->
      Commit.Email (Commit.Author (Commit.Commit c)) = "")
  /\ (author_unset A_date ms = true ->
      Commit.Date (Commit.Author (Commit.Commit c)) = zeroTime).
Proof.
  intros Hdec; split; [| split; [| split]]; intros Hno.
  - apply (commit_value_inner Commit.Message _ inner_value_keeps _ _ _ _ _ Hdec Hno).
  - apply (commit_value_inner _ _
             (inner_value_author Commit.Name _
                (fun v cur a s s' H => author_value_keeps A_name v cur a s s' H))
             _ _ _ _ _ Hdec Hno).
  - apply (commit_value_inner _ _
             (inner_value_author Commit.Email _
                (fun v cur a s s' H => author_value_keeps A_email v cur a s s' H))
             _ _ _ _ _ Hdec Hno).
  - apply (commit_value_inner _ _
             (inner_value_author Commit.Date _
                (fun v cur a s s' H => author_value_keeps A_date v cur a s s' H))
             _ _ _ _ _ Hdec Hno).
Qed.

End Decoder.

Section Lenient.
Context `{L : GoLib}.

Lemma dec_elems_empty_objects (n : nat) (saved : option error) :
  dec_elems Repository.zero dec_repository (repeat (JObj []) n) saved
  = Ok (repeat Repository.zero n, saved).
Proof.
  induction n as [| n IH]; [reflexivity |].
  cbn [repeat dec_elems]; unfold dec_bind at 1; cbn.
  unfold dec_bind; now rewrite IH.
Qed.

Lemma unmarshal_empty_objects (n : nat) :
  unmarshal_repositories (JArr (repeat (JObj []) n))
  = Ok (make_slice (repeat Repository.zero n)).
Proof.
  unfold unmarshal_repositories, dec_run; cbn [dec_slice]; unfold dec_bind.
  now rewrite dec_elems_empty_objects.
Qed.

(** Claim C9.  Decoding a scanned body succeeds exactly when it is [null]
    or an array of objects (or [null]s) in which every member whose key
    selects a field has a value of the kind that field accepts; so an error
    comes only from a body that is not such an array.  Members whose key
    selects no field can be dropped without changing anything.  A field
    that no member of an object selects comes out at its zero value: the
    empty string for the strings, the zero nested struct (and with it the
    zero time) for [commit].  The same holds through the nesting: in every
    commit of a decoded array the message is empty when no [commit] object
    of the element has a [message] member, and the author's name and email
    are empty and the date is the zero time when, along [commit] and then
    [author], no object has a member for them, whether the objects are
    missing, [null] or present without the member; a [null] element gives
    the zero commit.  Inside a [commit] or an [author] decoded into any
    value, a field without a member keeps what it held.  A listing of [n]
    empty objects decodes to [n] repositories with empty names, and the
    listing call returns them. *)
Theorem decoding_is_lenient :
  (forall j, is_ok (unmarshal_repositories j)
             = is_null j || array_of repository_object j)
  /\ (forall j, is_ok (unmarshal_commits j)
                = is_null j || array_of commit_object j)
  /\ (forall resp err j,
        Decode unmarshal_repositories resp = Err err -> Scanned resp = Ok j ->
        array_of repository_object j = false)
  /\ (forall resp err j,
        Decode unmarshal_commits resp = Err err -> Scanned resp = Ok j ->
        array_of commit_object j = false)
  /\ (forall ms cur saved,
        dec_repository (JObj ms) cur saved
        = dec_repository
            (JObj (filter (fun m => known repository_tag repository_fields (fst m)) ms))
            cur saved)
  /\ (forall ms cur saved,
        dec_commit (JObj ms) cur saved
        = dec_commit
            (JObj (filter (fun m => known commit_tag commit_fields (fst m)) ms))
            cur saved)
  /\ (forall items s,
        unmarshal_repositories (JArr items) = Ok s ->
        exists repos,
          s = make_slice repos
          /\ Forall2
               (fun j r =>
                  forall ms f,
                    j = JObj ms ->
                    lacks repository_tag repository_fields same_repository_field f ms
                    = true ->
                    repository_get f r = "")
               items repos)
  /\ (forall items s,
        unmarshal_commits (JArr items) = Ok s ->
        exists commits,
          s = make_slice commits
          /\ Forall2
               (fun j c =>
                  forall ms,
                    j = JObj ms ->
                    (lacks commit_tag commit_fields same_commit_field C_sha ms = true ->
                     Commit.SHA c = "")
                    /\ (lacks commit_tag commit_fields same_commit_field C_html_url ms
                        = true ->
                        Commit.HTMLURL c = "")
                    /\ (lacks commit_tag commit_fields same_commit_field C_commit ms
                        = true ->
                        Commit.Commit c = Commit.zero_commit
                        /\ Commit.Date (Commit.Author (Commit.Commit c)) = zeroTime))
               items commits)
  /\ (forall items s,
        unmarshal_commits (JArr items) = Ok s ->
        exists commits,
          s = make_slice commits
          /\ Forall2
               (fun j c =>
                  (j = JNull -> c = Commit.zero)
                  /\ forall ms,
                       j = JObj ms ->
                       (message_unset ms = true ->
                        Commit.Message (Commit.Commit c) = "")
                       /\ (author_unset A_name ms = true ->
                           Commit.Name (Commit.Author (Commit.Commit c)) = "")
                       /\ (author_unset A_email ms = true ->
                           Commit.Email (Commit.Author (Commit.Commit c)) = "")
                       /\ (author_unset A_date ms = true ->
                           Commit.Date (Commit.Author (Commit.Commit c)) = zeroTime))
               items commits)
  /\ (forall ms cur c saved saved',
        dec_struct "commit" dec_inner_field (JObj ms) cur saved = Ok (c, saved') ->
        (lacks inner_tag inner_fields same_inner_field I_message ms = true ->
         Commit.Message c = Commit.Message cur)
        /\ (lacks inner_tag inner_fields same_inner_field I_author ms = true ->
            Commit.Author c = Commit.Author cur))
  /\ (forall ms cur a saved saved',
        dec_struct "commit.author" dec_author_field (JObj ms) cur saved
        = Ok (a, saved') ->
        lacks author_tag author_fields same_author_field A_date ms = true ->
        Commit.Date a = Commit.Date cur)
  /\ (forall n,
        unmarshal_repositories (JArr (repeat (JObj []) n))
        = Ok (make_slice (repeat Repository.zero n)))
  /\ (forall w st line text n,
        w (List.length (sent st)) listing_request
        = Replied (make_Response 200 line text (Ok (JArr (repeat (JObj []) n)))) ->
        fst (fetchRepositories w st)
        = Done (Ok (make_slice (repeat Repository.zero n)))).
Proof.
  split; [exact unmarshal_repositories_ok |].
  split; [exact unmarshal_commits_ok |].
  split.
  { intros resp err j Hdec Hscan; unfold Decode in Hdec; rewrite Hscan in Hdec.
    pose proof (unmarshal_repositories_ok j) as Hok; rewrite Hdec in Hok.
    cbn [is_ok] in Hok; symmetry in Hok; now apply orb_false_elim in Hok. }
  split.
  { intros resp err j Hdec Hscan; unfold Decode in Hdec; rewrite Hscan in Hdec.
    pose proof (unmarshal_commits_ok j) as Hok; rewrite Hdec in Hok.
    cbn [is_ok] in Hok; symmetry in Hok; now apply orb_false_elim in Hok. }
  split.
  { intros ms cur saved; unfold dec_repository; cbn [dec_struct].
    apply (members_filter dec_repository_field
             (known repository_tag repository_fields)).
    clear; intros key v [name full_name description html_url]; unfold known.
    unfold dec_repository_field.
    destruct (find_field repository_tag repository_fields key);
      [discriminate | reflexivity]. }
  split.
  { intros ms cur saved; unfold dec_commit; cbn [dec_struct].
    apply (members_filter dec_commit_field (known commit_tag commit_fields)).
    clear; intros key v [sha inner html_url]; unfold known.
    unfold dec_commit_field.
    destruct (find_field commit_tag commit_fields key);
      [discriminate | reflexivity]. }
  split.
  { intros items s Hok; apply dec_slice_array in Hok as (repos & -> & Hall).
    exists repos; split; [reflexivity |].
    revert Hall; apply Forall2_impl.
    intros j r (saved & saved' & Hdec) ms f -> Hlacks.
    now rewrite (repository_untouched f ms _ r _ _ Hlacks Hdec); destruct f. }
  split.
  { intros items s Hok; apply dec_slice_array in Hok as (commits & -> & Hall).
    exists commits; split; [reflexivity |].
    revert Hall; apply Forall2_impl.
    intros j c (saved & saved' & Hdec) ms ->.
    destruct (commit_keeps ms _ c _ _ Hdec) as (Hsha & Hinner & Hurl).
    split; [intros Hl; now rewrite (Hsha Hl) |].
    split; [intros Hl; now rewrite (Hurl Hl) |].
    intros Hl; rewrite (Hinner Hl); split; reflexivity. }
  split.
  { intros items s Hok; apply dec_slice_array in Hok as (commits & -> & Hall).
    exists commits; split; [reflexivity |].
    revert Hall; apply Forall2_impl.
    intros j c (saved & saved' & Hdec); split.
    - intros ->; injection Hdec as <- _; reflexivity.
    - intros ms ->; apply (commit_object_zero ms c _ _ Hdec). }
  split; [intros ms cur c saved saved' Hdec; apply (inner_keeps ms cur c _ _ Hdec) |].
  split.
  { intros ms cur a saved saved' Hdec Hl.
    now destruct (author_keeps ms cur a _ _ Hdec) as (_ & _ & Hdate); apply Hdate. }
  split; [exact unmarshal_empty_objects |].
  intros w st line text n Hw.
  rewrite fetchRepositories_run, Hw; cbn [fst answer StatusCode Z.eqb Pos.eqb StatusOK].
  unfold Decode; cbn [Scanned]; now rewrite unmarshal_empty_objects.
Qed.

End Lenient.

(* ===================================================================== *)
(** ** The theorems at sample runs *)
(* ===================================================================== *)

Section Samples.
#[local] Existing Instance Sample.lib.

(** Claim C1 at its failing input: the account has no public repository.  The listing
    succeeds, nothing is appended, and the body of the 200 is [null]. *)
Lemma empty_history_is_null_witness :
  listed Runs.no_repositories boot = Done (Ok (make_slice []))
  /\ history (calls_of Runs.no_repositories boot (make_slice [])) = []
  /\ fst (serve Runs.no_repositories boot) = make_HTTPReply 200 JSONNull
  /\ written (snd (serve Runs.no_repositories boot)) = Some (200%Z, Commits nil_slice).
Proof.
  assert (Hl : listed Runs.no_repositories boot = Done (Ok (make_slice [])))
    by reflexivity.
  assert (Hnone : history (calls_of Runs.no_repositories boot (make_slice [])) = [])
    by reflexivity.
  split; [exact Hl |]; split; [exact Hnone |].
  exact (empty_history_is_null Runs.no_repositories boot (make_slice []) Hl Hnone).
Defined.

(** Claim C2 at the run whose listing call times out. *)
Lemma listing_failure_is_500_witness :
  listed Runs.timeout boot = Done (Err (ClientError "context deadline exceeded"))
  /\ fst (serve Runs.timeout boot)
     = make_HTTPReply 500 (JSONObject [("error", "context deadline exceeded")])
  /\ sent (snd (serve Runs.timeout boot)) = [listing_request].
Proof.
  assert (Hl : listed Runs.timeout boot
               = Done (Err (ClientError "context deadline exceeded")))
    by reflexivity.
  split; [exact Hl |].
  destruct (listing_failure_is_500 Runs.timeout boot
              (ClientError "context deadline exceeded") Hl)
    as (Hreply & Hsent & _).
  split; [exact Hreply | exact Hsent].
Defined.

(** Claim C3 fails as stated: the listing call succeeds, the one commit call
    succeeds, and the endpoint answers 500, because the commit's hash has
    three bytes. *)
Lemma listing_ok_yet_500 :
  listed Runs.short_sha boot = Done (Ok (make_slice [Runs.repo_a]))
  /\ calls_of Runs.short_sha boot (make_slice [Runs.repo_a])
     = [(Runs.repo_a, Ok (make_slice [Commit.make "abc" Commit.zero_commit ""]))]
  /\ fst (serve Runs.short_sha boot) = make_HTTPReply 500 NoBody
  /\ ~ (forall (w : World) (st : State) (repos : slice Repository.t),
          listed w st = Done (Ok repos) -> code (fst (serve w st)) = 200%Z).
Proof.
  assert (Hl : listed Runs.short_sha boot = Done (Ok (make_slice [Runs.repo_a])))
    by reflexivity.
  assert (Hreply : fst (serve Runs.short_sha boot) = make_HTTPReply 500 NoBody)
    by reflexivity.
  split; [exact Hl |]; split; [reflexivity |]; split; [exact Hreply |].
  intros Hclaim; specialize (Hclaim Runs.short_sha boot _ Hl).
  rewrite Hreply in Hclaim; discriminate.
Qed.

(** Claim C3 as amended, at the scenario of the specification: the second
    repository's commit call fails with 404, the answer is 200 and holds
    the first repository's entry. *)
Lemma tolerates_failed_commit_calls_witness :
  listed Runs.scenario boot = Done (Ok (make_slice [Runs.repo_a; Runs.repo_b]))
  /\ forallb shas_long
       (calls_of Runs.scenario boot (make_slice [Runs.repo_a; Runs.repo_b])) = true
  /\ code (fst (serve Runs.scenario boot)) = 200%Z
  /\ entries (body (fst (serve Runs.scenario boot)))
     = concat (map block
                 (calls_of Runs.scenario boot (make_slice [Runs.repo_a; Runs.repo_b])))
  /\ entries (body (fst (serve Runs.scenario boot)))
     = [make_CommitHistory "a" "init" "1234567" "2024-01-15T10:30:00Z" ""].
Proof.
  assert (Hl : listed Runs.scenario boot
               = Done (Ok (make_slice [Runs.repo_a; Runs.repo_b])))
    by reflexivity.
  assert (Hlong : forallb shas_long
                    (calls_of Runs.scenario boot (make_slice [Runs.repo_a; Runs.repo_b]))
                  = true)
    by reflexivity.
  split; [exact Hl |]; split; [exact Hlong |].
  destruct (tolerates_failed_commit_calls Runs.scenario boot
              (make_slice [Runs.repo_a; Runs.repo_b]) Hl Hlong)
    as (Hcode & _ & _ & Hentries & _).
  split; [exact Hcode |]; split; [exact Hentries | reflexivity].
Defined.

(** Claim C4 fails as stated: the listing call succeeds and the one commit
    call returns one commit, yet the output has no entry, because the
    commit's hash has three bytes and the endpoint answers a bare 500. *)
Lemma listing_ok_yet_no_entry :
  listed Runs.short_sha boot = Done (Ok (make_slice [Runs.repo_a]))
  /\ list_sum (map returned (calls_of Runs.short_sha boot (make_slice [Runs.repo_a])))
     = 1
  /\ List.length (entries (body (fst (serve Runs.short_sha boot)))) = 0
  /\ ~ (forall (w : World) (st : State) (repos : slice Repository.t),
          listed w st = Done (Ok repos) ->
          List.length (entries (body (fst (serve w st))))
          = list_sum (map returned (calls_of w st repos))).
Proof.
  assert (Hl : listed Runs.short_sha boot = Done (Ok (make_slice [Runs.repo_a])))
    by reflexivity.
  assert (Hsum : list_sum (map returned
                             (calls_of Runs.short_sha boot (make_slice [Runs.repo_a])))
                 = 1)
    by reflexivity.
  assert (Hnone : List.length (entries (body (fst (serve Runs.short_sha boot)))) = 0)
    by reflexivity.
  split; [exact Hl |]; split; [exact Hsum |]; split; [exact Hnone |].
  intros Hclaim; specialize (Hclaim Runs.short_sha boot _ Hl).
  rewrite Hsum, Hnone in Hclaim; discriminate.
Qed.

(** Claim C4 as amended, at the scenario: no hash is short, one call
    returned one commit, the other failed, and the body of the 200 has one
    entry. *)
Lemma entry_count_witness :
  listed Runs.scenario boot = Done (Ok (make_slice [Runs.repo_a; Runs.repo_b]))
  /\ forallb shas_long
       (calls_of Runs.scenario boot (make_slice [Runs.repo_a; Runs.repo_b])) = true
  /\ code (fst (serve Runs.scenario boot)) = 200%Z
  /\ List.length (entries (body (fst (serve Runs.scenario boot))))
     = list_sum (map returned
                   (calls_of Runs.scenario boot (make_slice [Runs.repo_a; Runs.repo_b])))
  /\ list_sum (map returned
                 (calls_of Runs.scenario boot (make_slice [Runs.repo_a; Runs.repo_b])))
     = 1.
Proof.
  assert (Hl : listed Runs.scenario boot
               = Done (Ok (make_slice [Runs.repo_a; Runs.repo_b])))
    by reflexivity.
  assert (Hlong : forallb shas_long
                    (calls_of Runs.scenario boot (make_slice [Runs.repo_a; Runs.repo_b]))
                  = true)
    by reflexivity.
  split; [exact Hl |]; split; [exact Hlong |].
  destruct (entry_count Runs.scenario boot
              (make_slice [Runs.repo_a; Runs.repo_b]) Hl)
    as (Hcode & Hcount & _).
  split; [exact (proj2 Hcode Hlong) |]; split; [exact (Hcount Hlong) | reflexivity].
Defined.

(** Claim C5 fails as stated: a 201 with a body that decodes is an error for
    both fetchers. *)
Lemma status_201_is_an_error :
  (200 <= StatusCode Runs.created < 300)%Z
  /\ Decode unmarshal_repositories Runs.created = Ok (make_slice [])
  /\ Decode unmarshal_commits Runs.created = Ok (make_slice [])
  /\ fst (fetchRepositories Runs.answers_201 boot)
     = Done (Err (ErrorString "GitHub API error: 201 Created - []"))
  /\ fst (fetchCommits "u/a" Runs.answers_201 boot)
     = Done (Err (ErrorString "GitHub API error: 201 Created - []"))
  /\ ~ (forall (w : World) (st : State) (resp : Response),
          w (List.length (sent st)) listing_request = Replied resp ->
          (200 <= StatusCode resp < 300)%Z ->
          fst (fetchRepositories w st) = Done (Decode unmarshal_repositories resp)).
Proof.
  assert (H2xx : (200 <= StatusCode Runs.created < 300)%Z) by (cbn; lia).
  split; [exact H2xx |].
  do 4 (split; [reflexivity |]).
  intros Hclaim.
  specialize (Hclaim Runs.answers_201 boot Runs.created eq_refl H2xx).
  discriminate Hclaim.
Qed.

(** Claim C5 as amended, at the same response. *)
Lemma success_is_status_200_witness :
  Runs.answers_201 (List.length (sent boot)) listing_request = Replied Runs.created
  /\ StatusCode Runs.created <> 200%Z
  /\ exists err,
       fst (fetchRepositories Runs.answers_201 boot) = Done (Err err)
       /\ Error err = "GitHub API error: 201 Created - []".
Proof.
  split; [reflexivity |].
  assert (Hne : StatusCode Runs.created <> 200%Z) by discriminate.
  split; [exact Hne |].
  destruct (success_is_status_200 Runs.answers_201 boot "u/a" Runs.created)
    as (Hlisting & _).
  assert (Hw : Runs.answers_201 (List.length (sent boot)) listing_request
               = Replied Runs.created)
    by reflexivity.
  destruct (Hlisting Hw) as (_ & Hnot & _).
  exact (Hnot Hne).
Defined.

(** Claim C6 at the commit of the scenario. *)
Lemma short_hash_is_prefix_witness :
  7 <= String.length (Commit.SHA Runs.commit_init)
  /\ exists entry,
       newCommitHistory Runs.repo_a Runs.commit_init = Done entry
       /\ String.length (CommitSHA entry) = 7
       /\ prefix (CommitSHA entry) (Commit.SHA Runs.commit_init) = true
       /\ CommitSHA entry = substring 0 7 (Commit.SHA Runs.commit_init).
Proof.
  assert (Hlong : 7 <= String.length (Commit.SHA Runs.commit_init))
    by (cbn; lia).
  split; [exact Hlong |].
  exact (short_hash_is_prefix Runs.repo_a Runs.commit_init Hlong).
Defined.

(** Claim C7 at the commit whose hash is [abc]. *)
Lemma short_hash_faults_witness :
  String.length (Commit.SHA (Commit.make "abc" Commit.zero_commit "")) < 7
  /\ newCommitHistory Runs.repo_a (Commit.make "abc" Commit.zero_commit "")
     = Panic "slice bounds out of range".
Proof.
  assert (Hshort : String.length (Commit.SHA (Commit.make "abc" Commit.zero_commit "")) < 7)
    by (cbn; lia).
  split; [exact Hshort |].
  exact (proj1 short_hash_faults Runs.repo_a _ Hshort).
Defined.

(** Claim C8 at two repositories whose commits interleave in time: the body
    keeps the first repository's two commits together and ahead of the
    second's, though the second's commit lies between them in time. *)
Lemma grouped_by_repository_witness :
  listed Runs.interleaved boot = Done (Ok (make_slice [Runs.repo_a; Runs.repo_b]))
  /\ code (fst (serve Runs.interleaved boot)) = 200%Z
  /\ entries (body (fst (serve Runs.interleaved boot)))
     = concat (map block
                 (calls_of Runs.interleaved boot (make_slice [Runs.repo_a; Runs.repo_b])))
  /\ map (fun e => (RepositoryName e, CommitMessage e, CommitTime e))
       (entries (body (fst (serve Runs.interleaved boot))))
     = [("a", "a2", "2024-03-01T00:00:00Z");
        ("a", "a1", "2024-01-01T00:00:00Z");
        ("b", "b1", "2024-02-01T00:00:00Z")].
Proof.
  assert (Hl : listed Runs.interleaved boot
               = Done (Ok (make_slice [Runs.repo_a; Runs.repo_b])))
    by reflexivity.
  assert (Hcode : code (fst (serve Runs.interleaved boot)) = 200%Z) by reflexivity.
  split; [exact Hl |]; split; [exact Hcode |].
  destruct (grouped_by_repository Runs.interleaved boot
              (make_slice [Runs.repo_a; Runs.repo_b]) Hl Hcode)
    as (_ & Hentries & _).
  split; [exact Hentries | reflexivity].
Defined.

(** Claim C9 at a listing with an unknown member and missing fields, and at
    commits with parts of the nesting missing: what is not given is empty,
    and the zero time for the date. *)
Lemma decoding_is_lenient_witness :
  array_of repository_object Runs.sparse_listing = true
  /\ is_ok (unmarshal_repositories Runs.sparse_listing) = true
  /\ unmarshal_repositories Runs.sparse_listing
     = Ok (make_slice [Repository.make "a" "" "" ""; Repository.zero])
  /\ unmarshal_commits (JArr Runs.partial_commits)
     = Ok (make_slice
             [Commit.make "1111111"
                (Commit.make_commit "" (Commit.make_author "suda" "" zeroTime)) "";
              Commit.make "2222222" (Commit.make_commit "second" Commit.zero_author) "";
              Commit.make "3333333" Commit.zero_commit "";
              Commit.make "4444444" Commit.zero_commit "";
              Commit.zero])
  /\ (exists commits,
        unmarshal_commits (JArr Runs.partial_commits) = Ok (make_slice commits)
        /\ Forall (fun c => Commit.Email (Commit.Author (Commit.Commit c)) = ""
                            /\ Commit.Date (Commit.Author (Commit.Commit c)) = zeroTime)
             commits).
Proof.
  split; [reflexivity |].
  split; [rewrite (proj1 decoding_is_lenient Runs.sparse_listing); reflexivity |].
  split; [reflexivity |].
  assert (Hok : unmarshal_commits (JArr Runs.partial_commits)
                = Ok (make_slice
                        [Commit.make "1111111"
                           (Commit.make_commit ""
                              (Commit.make_author "suda" "" zeroTime)) "";
                         Commit.make "2222222"
                           (Commit.make_commit "second" Commit.zero_author) "";
                         Commit.make "3333333" Commit.zero_commit "";
                         Commit.make "4444444" Commit.zero_commit "";
                         Commit.zero]))
    by reflexivity.
  split; [exact Hok |].
  destruct decoding_is_lenient as (_ & _ & _ & _ & _ & _ & _ & _ & Hnested & _).
  destruct (Hnested _ _ Hok) as (commits & Heq & Hall).
  exists commits; split; [now rewrite Hok, Heq |].
  clear Hok Heq; unfold Runs.partial_commits in Hall.
  repeat match goal with
         | H : Forall2 _ _ _ |- _ => inversion H; subst; clear H
         end.
  repeat constructor;
    match goal with
    | H : _ /\ (forall ms, JObj ?m = JObj ms -> _) |- _ =>
        destruct H as (_ & H); destruct (H m eq_refl) as (_ & _ & He & Hd);
        (apply He || apply Hd); reflexivity
    | H : (JNull = JNull -> ?c = _) /\ _ |- _ =>
        destruct H as (H & _); rewrite (H eq_refl); reflexivity
    end.
Defined.

(** Claim C10 at two runs of the scenario: against different upstreams and from
    different states, with the same outcomes of the three calls. *)
Lemma determined_by_outcomes_witness :
  listed Runs.scenario boot = listed Runs.scenario_then_down Runs.busy
  /\ (forall repos,
        listed Runs.scenario boot = Done (Ok repos) ->
        calls_of Runs.scenario boot repos
        = calls_of Runs.scenario_then_down Runs.busy repos)
  /\ fst (serve Runs.scenario boot) = fst (serve Runs.scenario_then_down Runs.busy).
Proof.
  assert (Hcalls : forall repos,
             listed Runs.scenario boot = Done (Ok repos) ->
             calls_of Runs.scenario boot repos
             = calls_of Runs.scenario_then_down Runs.busy repos).
  { intros repos Hl; vm_compute in Hl; injection Hl as <-; reflexivity. }
  assert (Hl : listed Runs.scenario boot = listed Runs.scenario_then_down Runs.busy)
    by reflexivity.
  split; [exact Hl |]; split; [exact Hcalls |].
  exact (determined_by_outcomes Runs.scenario Runs.scenario_then_down boot Runs.busy
           Hl Hcalls).
Defined.

End Samples.

(* ===================================================================== *)
(** ** The trace of a run *)
(* ===================================================================== *)

Section Trace.
Context `{L : GoLib}.

Lemma visited_all (calls : list call) :
  forallb shas_long calls = true -> visited calls = List.length calls.
Proof.
  induction calls as [| c rest IH]; [reflexivity |].
  cbn [forallb visited List.length]; intros Hlong.
  apply andb_prop in Hlong as [-> Hrest]; now rewrite IH.
Qed.

Lemma visited_le (calls : list call) : visited calls <= List.length calls.
Proof.
  induction calls as [| c rest IH]; [reflexivity |].
  cbn [visited List.length]; destruct (shas_long c); lia.
Qed.

Lemma commit_calls_length (w : World) (st : State) (repos : list Repository.t) :
  List.length (commit_calls w st repos) = List.length repos.
Proof. now rewrite <- (commit_calls_repos w st repos) at 2; rewrite length_map. Qed.

(** One turn of the outer loop. *)
Lemma range_repos_cons (w : World) (repo : Repository.t)
    (rest : list Repository.t) (allCommits : slice CommitHistory) (st : State) :
  range_repos (repo :: rest) allCommits w st =
  match answer unmarshal_commits (w (List.length (sent st)) (request_of repo)) with
  | Ok commits =>
      if forallb sha_long (elems commits)
      then range_repos rest (extend allCommits (map (entry_of repo) (elems commits)))
             w (sending st (request_of repo))
      else (Panic "slice bounds out of range", sending st (request_of repo))
  | Err err =>
      range_repos rest allCommits w
        (make_State (sent st ++ [request_of repo])
           (stdout st ++ log_line (repo, Err err)) (written st))
  end.
Proof.
  cbn [range_repos]; unfold bind at 1; rewrite fetchCommits_run.
  fold (request_of repo).
  destruct (answer unmarshal_commits _) as [commits | err].
  - unfold bind at 1; rewrite range_commits_run.
    now destruct (forallb sha_long (elems commits)).
  - reflexivity.
Qed.

(** What the outer loop leaves behind, however it ends: one request for
    each repository it reached, one line for each of their calls that
    failed, and the context as it was. *)
Lemma range_repos_state (w : World) (repos : list Repository.t) :
  forall (allCommits : slice CommitHistory) (st : State),
    sent (snd (range_repos repos allCommits w st))
    = (sent st
       ++ map request_of (firstn (visited (commit_calls w st repos)) repos))%list
    /\ stdout (snd (range_repos repos allCommits w st))
       = (stdout st
          ++ concat (map log_line
                       (firstn (visited (commit_calls w st repos))
                          (commit_calls w st repos))))%list
    /\ written (snd (range_repos repos allCommits w st)) = written st.
Proof.
  induction repos as [| repo rest IH]; intros allCommits st.
  - cbn; now rewrite !app_nil_r.
  - rewrite commit_calls_cons, range_repos_cons.
    fold (request_of repo).
    destruct (answer unmarshal_commits _) as [commits | err] eqn:Ecall.
    + cbn [visited].
      change (shas_long (repo, Ok commits)) with (forallb sha_long (elems commits)).
      destruct (forallb sha_long (elems commits)).
      * destruct (IH (extend allCommits (map (entry_of repo) (elems commits)))
                    (sending st (request_of repo))) as (Hsent & Hout & Hwritten).
        rewrite Hsent, Hout, Hwritten.
        cbn [firstn map concat log_line snd app sending sent stdout written].
        now rewrite <- app_assoc.
      * cbn [snd firstn map concat log_line app sending sent stdout written].
        now rewrite !app_nil_r.
    + cbn [visited].
      change (shas_long (repo, Err err)) with true; cbv iota.
      match goal with
      | |- context [range_repos rest allCommits w ?s] =>
          rewrite (commit_calls_sent w rest (sending st (request_of repo)) s)
            by reflexivity;
          destruct (IH allCommits s) as (Hsent & Hout & Hwritten)
      end.
      rewrite Hsent, Hout, Hwritten.
      cbn [firstn map concat log_line fst snd app sending sent stdout written].
      now rewrite <- !app_assoc.
Qed.

Lemma serve_state (w : World) (st : State) :
  sent (snd (serve w st)) = sent (snd (getGitHistory w (fresh st)))
  /\ stdout (snd (serve w st)) = stdout (snd (getGitHistory w (fresh st))).
Proof.
  unfold serve; destruct (getGitHistory w (fresh st)) as [[u | r] st'];
    [destruct (written st') as [[c obj] |] |]; split; reflexivity.
Qed.

Lemma getGitHistory_state (w : World) (st st1 : State) (repos : slice Repository.t) :
  fetchRepositories w st = (Done (Ok repos), st1) ->
  sent (snd (getGitHistory w st))
  = sent (snd (range_repos (elems repos) nil_slice w st1))
  /\ stdout (snd (getGitHistory w st))
     = stdout (snd (range_repos (elems repos) nil_slice w st1)).
Proof.
  intros Hlist; unfold getGitHistory, bind; rewrite Hlist.
  destruct (range_repos (elems repos) nil_slice w st1) as [[all | r] st'];
    split; reflexivity.
Qed.

Lemma serve_sent (w : World) (st : State) (repos : slice Repository.t) :
  listed w st = Done (Ok repos) ->
  sent (snd (serve w st))
  = (sent st ++ listing_request
       :: map request_of
            (firstn (visited (calls_of w st repos)) (elems repos)))%list.
Proof.
  intros Hl; apply listed_run in Hl; unfold calls_of.
  pose proof (fetchRepositories_run w (fresh st)) as Hrun.
  rewrite Hl in Hrun; injection Hrun as _ Hst1.
  destruct (serve_state w st) as (-> & _).
  destruct (getGitHistory_state w (fresh st) _ repos Hl) as (-> & _).
  destruct (range_repos_state w (elems repos) nil_slice
              (snd (fetchRepositories w (fresh st)))) as (-> & _).
  rewrite Hst1 at 1; cbn [sending sent fresh]; rewrite <- app_assoc.
  reflexivity.
Qed.

(** X1.  When the listing call succeeded, the outbound calls of a run are
    the listing call and then one call of [fetchCommits] for each
    repository, in listing order, up to and including the first repository
    whose commits hold a hash shorter than seven bytes: all of them when
    there is none, and never one twice or one more after a failed call.
    Each is recorded as the request made of the repository's full name;
    whether it reaches the network is up to [http.NewRequest]. *)
Theorem requests_follow_the_listing (w : World) (st : State)
    (repos : slice Repository.t) :
  listed w st = Done (Ok repos) ->
  sent (snd (serve w st))
  = (sent st ++ listing_request
       :: map request_of
            (firstn (visited (calls_of w st repos)) (elems repos)))%list
  /\ (forallb shas_long (calls_of w st repos) = true ->
      sent (snd (serve w st))
      = (sent st ++ listing_request :: map request_of (elems repos))%list)
  /\ List.length (sent (snd (serve w st))) <= List.length (sent st) + 1 + len repos.
Proof.
  intros Hl; rewrite (serve_sent w st repos Hl); unfold calls_of.
  split; [reflexivity |]; split.
  - intros Hlong; rewrite (visited_all _ Hlong), commit_calls_length.
    now rewrite firstn_all.
  - rewrite length_app; cbn [List.length]; rewrite length_map, length_firstn.
    unfold len; lia.
Qed.


(** X3.  Every entry of a 200 body was built from a commit that a
    successful commit call returned for a listed repository: it carries
    that repository's name, and its hash has exactly seven bytes and is a
    prefix of the commit's. *)
Theorem entries_come_from_commits (w : World) (st : State)
    (repos : slice Repository.t) (e : CommitHistory) :
  listed w st = Done (Ok repos) ->
  code (fst (serve w st)) = 200%Z ->
  In e (entries (body (fst (serve w st)))) ->
  exists repo commits commit,
    In repo (elems repos)
    /\ In (repo, Ok commits) (calls_of w st repos)
    /\ In commit (elems commits)
    /\ e = entry_of repo commit
    /\ RepositoryName e = Repository.Name repo
    /\ String.length (CommitSHA e) = 7
    /\ prefix (CommitSHA e) (Commit.SHA commit) = true.
Proof.
  intros Hl Hcode Hin; apply listed_run in Hl; unfold calls_of in *.
  destruct (forallb shas_long
              (commit_calls w (snd (fetchRepositories w (fresh st))) (elems repos)))
    eqn:Hlong.
  2: { rewrite (serve_listing_panic w st _ repos Hl Hlong) in Hcode; discriminate. }
  rewrite (serve_listing_ok w st _ repos Hl Hlong) in Hin; cbn [fst body] in Hin.
  rewrite entries_Marshal, elems_extend in Hin; cbn [elems app] in Hin.
  unfold history in Hin; apply in_concat in Hin as (l & Hl' & He).
  apply in_map_iff in Hl' as ([repo r] & <- & Hc).
  unfold block in He; cbn [fst snd] in He.
  destruct r as [commits | err]; [| contradiction].
  apply in_map_iff in He as (commit & <- & Hcommit).
  exists repo, commits, commit.
  assert (Hsha : sha_long commit = true).
  { rewrite forallb_forall in Hlong; specialize (Hlong _ Hc).
    unfold shas_long in Hlong; cbn [snd] in Hlong.
    rewrite forallb_forall in Hlong; now apply Hlong. }
  split.
  { rewrite <- (commit_calls_repos w (snd (fetchRepositories w (fresh st))) (elems repos)).
    change repo with (fst (repo, @Ok (slice Commit.t) commits)); now apply in_map. }
  repeat split; try assumption; cbn [entry_of CommitSHA].
  - apply length_substring_0; unfold sha_long in Hsha; now apply Nat.leb_le.
  - apply prefix_substring_0.
Qed.

(** X4.  The endpoint has four answers and no other: 500 with the object
    holding one [error] text, a bare 500, 200 with [null], and 200 with an
    array that is not empty.  It never answers with an empty array, with a
    part of the collection, or with any other status. *)
Theorem reply_shapes (w : World) (st : State) :
  (exists msg,
      fst (serve w st) = make_HTTPReply 500 (JSONObject [("error", msg)]))
  \/ fst (serve w st) = make_HTTPReply 500 NoBody
  \/ fst (serve w st) = make_HTTPReply 200 JSONNull
  \/ (exists e rest,
        fst (serve w st) = make_HTTPReply 200 (JSONArray (e :: rest))).
Proof.
  rewrite (serve_reply w st _ _ (fetchRepositories_run w (fresh st))).
  destruct (answer unmarshal_repositories _) as [repos | err]; cbn [reply_of].
  - destruct (forallb shas_long _); [| now right; left].
    destruct (history _) as [| e rest]; cbn [extend Marshal elems app].
    + now right; right; left.
    + right; right; right; eauto.
  - left; eauto.
Qed.

(** X5.  What went wrong with the listing call reaches the client as it
    is: the client's error text when no response came, and, for a response
    whose status is not 200, the text made of the upstream's status line
    and of the whole body it sent. *)
Theorem upstream_error_reaches_the_client (w : World) (st : State) :
  (forall err,
      w (List.length (sent st)) listing_request = NoResponse err ->
      fst (serve w st) = make_HTTPReply 500 (JSONObject [("error", Error err)]))
  /\ (forall resp,
        w (List.length (sent st)) listing_request = Replied resp ->
        StatusCode resp <> 200%Z ->
        fst (serve w st)
        = make_HTTPReply 500
            (JSONObject
               [("error",
                 "GitHub API error: " ++ Status resp ++ " - " ++ Body resp)])).
Proof.
  pose proof (fetchRepositories_run w (fresh st)) as Hrun; cbn [fresh sent] in Hrun.
  split.
  - intros err Hw; rewrite Hw in Hrun; cbn [answer] in Hrun.
    now rewrite (serve_listing_failed w st _ err Hrun).
  - intros resp Hw Hne; rewrite Hw in Hrun; unfold answer in Hrun.
    destruct (Z.eqb_spec (StatusCode resp) StatusOK) as [E | _];
      [now unfold StatusOK in E |].
    now rewrite (serve_listing_failed w st _ _ Hrun).
Qed.

(** The outer loop reads a repository's name and full name, and the
    upstream's answers from now on; nothing else. *)
Lemma range_repos_reads (w1 w2 : World) (repos1 repos2 : list Repository.t) :
  Forall2 same_to_handler repos1 repos2 ->
  forall (allCommits : slice CommitHistory) (st : State),
    (forall n req, List.length (sent st) <= n -> w1 n req = w2 n req) ->
    range_repos repos1 allCommits w1 st = range_repos repos2 allCommits w2 st.
Proof.
  induction 1 as [| r1 r2 rest1 rest2 [Hname Hfull] _ IH]; intros allCommits st Hw;
    [reflexivity |].
  rewrite !range_repos_cons.
  assert (Hreq : request_of r1 = request_of r2) by (unfold request_of; now rewrite Hfull).
  rewrite Hreq, (Hw _ _ (le_n _)).
  assert (Hnext : forall st', List.length (sent st') = S (List.length (sent st)) ->
                   forall n req, List.length (sent st') <= n -> w1 n req = w2 n req).
  { intros st' Hlen n req Hn; apply Hw; lia. }
  destruct (answer unmarshal_commits _) as [commits | err].
  - destruct (forallb sha_long (elems commits)); [| reflexivity].
    rewrite (map_ext (entry_of r1) (entry_of r2))
      by (intros c; unfold entry_of; now rewrite Hname).
    apply IH, Hnext; unfold sending; cbn [sent]; rewrite length_app; cbn; lia.
  - unfold log_line; cbn [fst snd]; rewrite Hname.
    apply IH, Hnext; cbn [sent]; rewrite length_app; cbn; lia.
Qed.

(** X6.  The answer, the requests and the printed lines depend on the
    listed repositories only through their names and full names: two
    upstreams whose listings differ in nothing else (in the descriptions,
    the URLs, or fields the structs do not have) and that answer the later
    requests alike get the same reply. *)
Theorem unused_fields_do_not_matter (w1 w2 : World) (st : State)
    (repos1 repos2 : slice Repository.t) :
  listed w1 st = Done (Ok repos1) ->
  listed w2 st = Done (Ok repos2) ->
  Forall2 same_to_handler (elems repos1) (elems repos2) ->
  (forall n req, List.length (sent st) < n -> w1 n req = w2 n req) ->
  serve w1 st = serve w2 st.
Proof.
  intros Hl1 Hl2 Hsame Hw.
  apply listed_run in Hl1, Hl2.
  pose proof (fetchRepositories_run w1 (fresh st)) as H1.
  pose proof (fetchRepositories_run w2 (fresh st)) as H2.
  rewrite Hl1 in H1; injection H1 as _ Hst1.
  rewrite Hl2 in H2; injection H2 as _ Hst2.
  unfold serve, getGitHistory, bind; rewrite Hl1, Hl2, Hst1, Hst2.
  rewrite (range_repos_reads w1 w2 _ _ Hsame nil_slice
             (sending (fresh st) listing_request)); [reflexivity |].
  intros n req Hn; apply Hw.
  unfold sending in Hn; cbn [sent fresh] in Hn; rewrite length_app in Hn; cbn in Hn; lia.
Qed.

(** X7.  Every element of a listing that decodes becomes a repository,
    whatever it holds: the decoded slice is allocated and as long as the
    array, and a run that reaches its end has made one call of
    [fetchCommits] for each element after the listing call. *)
Theorem every_listing_element_is_fetched (w : World) (st : State)
    (resp : Response) (items : list json) (repos : slice Repository.t) :
  w (List.length (sent st)) listing_request = Replied resp ->
  StatusCode resp = 200%Z ->
  Scanned resp = Ok (JArr items) ->
  listed w st = Done (Ok repos) ->
  is_nil repos = false
  /\ len repos = List.length items
  /\ (forallb shas_long (calls_of w st repos) = true ->
      List.length (sent (snd (serve w st)))
      = List.length (sent st) + 1 + List.length items).
Proof.
  intros Hw Hcode Hscan Hl.
  assert (Hdec : unmarshal_repositories (JArr items) = Ok repos).
  { unfold listed in Hl; rewrite fetchRepositories_run in Hl; cbn [fst fresh sent] in Hl.
    rewrite Hw in Hl; unfold answer, Decode in Hl.
    rewrite Hcode, Hscan in Hl; cbn in Hl; now injection Hl. }
  apply dec_slice_array in Hdec as (l & -> & Hall).
  apply Forall2_length in Hall.
  split; [reflexivity |]; split; [now unfold len; cbn [elems] |].
  intros Hlong; rewrite (serve_sent w st _ Hl).
  unfold calls_of in *; rewrite (visited_all _ Hlong), commit_calls_length, firstn_all.
  rewrite length_app; cbn [List.length elems]; rewrite length_map; lia.
Qed.

End Trace.

(* ===================================================================== *)
(** ** The request URLs *)
(* ===================================================================== *)

Lemma append_length (s t : string) :
  String.length (s ++ t) = String.length s + String.length t.
Proof. induction s as [| c s IH]; [reflexivity | cbn; now rewrite IH]. Qed.

Lemma append_cancel_tail (t s1 s2 : string) : s1 ++ t = s2 ++ t -> s1 = s2.
Proof.
  revert s2; induction s1 as [| c s1 IH]; intros [| d s2] H.
  - reflexivity.
  - apply (f_equal String.length) in H; cbn in H; rewrite append_length in H; lia.
  - apply (f_equal String.length) in H; cbn in H; rewrite append_length in H; lia.
  - cbn in H; injection H as -> H; f_equal; now apply IH.
Qed.

(** X8.  The request [fetchCommits] makes its call for is a GET with the
    media type of the API and the repository's full name put into the URL
    as it is, so the calls for two repositories are for the same request
    exactly when the full names are the same; and none of them is for the
    request of [fetchRepositories], whose URL is fixed. *)
Theorem request_urls_are_distinct `{L : GoLib} (w : World) (st : State)
    (name1 name2 : string) :
  (sent (snd (fetchCommits name1 w st)) = sent (snd (fetchCommits name2 w st))
   <-> name1 = name2)
  /\ sent (snd (fetchCommits name1 w st)) <> sent (snd (fetchRepositories w st))
  /\ sent (snd (fetchCommits name1 w st))
     = (sent st
        ++ [make_Request "GET"
              ("https://api.github.com/repos/" ++ name1 ++ "/commits?per_page=100")
              "application/vnd.github.v3+json"])%list
  /\ sent (snd (fetchRepositories w st))
     = (sent st
        ++ [make_Request "GET"
              "https://api.github.com/users/develop-suda/repos?type=public&per_page=100"
              "application/vnd.github.v3+json"])%list.
Proof.
  rewrite !fetchCommits_run, fetchRepositories_run; cbn [snd sending sent].
  split; [split |].
  - intros H; apply app_inv_head in H; injection H as H.
    now apply append_cancel_tail in H.
  - now intros ->.
  - split; [| split; reflexivity].
    intros H; apply app_inv_head in H; discriminate H.
Qed.

(* ===================================================================== *)
(** ** The handler with structured logging *)
(* ===================================================================== *)

Section Logging.
Context `{L : GoLib}.

Lemma warnings_app (a b : list Logged.Event) :
  Logged.warnings (a ++ b) = Logged.warnings a + Logged.warnings b.
Proof. unfold Logged.warnings; now rewrite filter_app, length_app. Qed.

(** The listing call of the logging version: the answer and the request of
    the first version, nothing printed, and no warning among its events. *)
Lemma logged_fetchRepositories_run (glob : Logged.Level) (w : World)
    (p : Logged.Process) :
  exists evs,
    Logged.fetchRepositories glob w p
    = (Done (answer unmarshal_repositories
               (w (List.length (sent (Logged.base p))) listing_request)),
       Logged.make_Process (sending (Logged.base p) listing_request)
         (Logged.events p ++ evs))
    /\ Logged.warnings evs = 0.
Proof.
  unfold Logged.fetchRepositories, Logged.lbind, Logged.emit, Logged.plain, http_get.
  cbn [Logged.base Logged.events].
  change (make_Request "GET"
            (githubAPIBase ++ "/users/" ++ username
             ++ "/repos?type=public&per_page=100")
            "application/vnd.github.v3+json") with listing_request.
  unfold answer, sending, Logged.lret.
  destruct (w (List.length (sent (Logged.base p))) listing_request) as [err | resp].
  - eexists; split; [reflexivity |]; now destruct (Logged.rank glob <=? _).
  - destruct (StatusCode resp =? StatusOK)%Z; cbn [negb Logged.base Logged.events].
    + destruct (Decode unmarshal_repositories resp) as [repos | err];
        cbn [Logged.base Logged.events]; rewrite <- app_assoc;
        (eexists; split; [reflexivity |]);
        rewrite warnings_app;
        now repeat destruct (Logged.rank glob <=? _).
    + rewrite <- app_assoc; eexists; split; [reflexivity |].
      rewrite warnings_app; now repeat destruct (Logged.rank glob <=? _).
Qed.

Lemma logged_fetchCommits_run (name : string) (glob : Logged.Level) (w : World)
    (p : Logged.Process) :
  exists evs,
    Logged.fetchCommits name glob w p
    = (Done (answer unmarshal_commits
               (w (List.length (sent (Logged.base p))) (commits_request name))),
       Logged.make_Process (sending (Logged.base p) (commits_request name))
         (Logged.events p ++ evs))
    /\ Logged.warnings evs = 0.
Proof.
  unfold Logged.fetchCommits, Logged.lbind, Logged.emit, Logged.plain, http_get.
  cbn [Logged.base Logged.events].
  change (make_Request "GET"
            (githubAPIBase ++ "/repos/" ++ name ++ "/commits?per_page=100")
            "application/vnd.github.v3+json") with (commits_request name).
  unfold answer, sending, Logged.lret.
  destruct (w (List.length (sent (Logged.base p))) (commits_request name))
    as [err | resp].
  - eexists; split; [reflexivity |]; now destruct (Logged.rank glob <=? _).
  - destruct (StatusCode resp =? StatusOK)%Z; cbn [negb Logged.base Logged.events].
    + destruct (Decode unmarshal_commits resp) as [commits | err];
        cbn [Logged.base Logged.events]; rewrite <- app_assoc;
        (eexists; split; [reflexivity |]);
        rewrite warnings_app;
        now repeat destruct (Logged.rank glob <=? _).
    + rewrite <- app_assoc; eexists; split; [reflexivity |].
      rewrite warnings_app; now repeat destruct (Logged.rank glob <=? _).
Qed.

(** The outer loop of the logging version: the result, the requests and
    the context of the first version's loop, nothing printed, and one
    warning for each failed call when warnings are written. *)
Lemma logged_range_repos_run (glob : Logged.Level) (w : World)
    (repos : list Repository.t) :
  forall (allCommits : slice CommitHistory) (p : Logged.Process),
  exists evs,
    Logged.range_repos repos allCommits glob w p
    = (if forallb shas_long (commit_calls w (Logged.base p) repos)
       then Done (extend allCommits (history (commit_calls w (Logged.base p) repos)))
       else Panic "slice bounds out of range",
       Logged.make_Process
         (make_State
            (sent (Logged.base p)
             ++ map request_of
                  (firstn (visited (commit_calls w (Logged.base p) repos)) repos))
            (stdout (Logged.base p)) (written (Logged.base p)))
         (Logged.events p ++ evs))
    /\ Logged.warnings evs
       = if Logged.rank glob <=? Logged.rank Logged.WarnLevel
         then List.length
                (filter failed
                   (firstn (visited (commit_calls w (Logged.base p) repos))
                      (commit_calls w (Logged.base p) repos)))
         else 0.
Proof.
  induction repos as [| repo rest IH]; intros allCommits p.
  - exists []; destruct p as [[s o wr] ev]; cbn; rewrite !app_nil_r.
    split; [reflexivity | now destruct (Logged.rank glob <=? 2)].
  - cbn [Logged.range_repos]; unfold Logged.lbind at 1.
    destruct (logged_fetchCommits_run (Repository.FullName repo) glob w p)
      as (evs1 & -> & Hw1).
    rewrite commit_calls_cons; fold (request_of repo).
    destruct (answer unmarshal_commits _) as [commits | err].
    + unfold Logged.lbind at 1, Logged.emit at 1; cbn [Logged.base Logged.events].
      unfold Logged.lbind at 1, Logged.plain at 1; cbn [Logged.base Logged.events].
      rewrite range_commits_run.
      cbn [forallb visited].
      change (shas_long (repo, Ok commits)) with (forallb sha_long (elems commits)).
      destruct (forallb sha_long (elems commits)); cbn [andb].
      * match goal with
        | |- context [Logged.range_repos rest ?a glob w ?q] =>
            destruct (IH a q) as (evs2 & -> & Hw2)
        end.
        cbn [Logged.base Logged.events sending sent stdout written] in Hw2 |- *.
        eexists; split.
        { rewrite <- !app_assoc; cbn [firstn map app].
          unfold history; cbn [map concat block fst snd].
          rewrite extend_extend; reflexivity. }
        rewrite !warnings_app, Hw1, Hw2; cbn [firstn filter failed snd is_ok negb].
        destruct (Logged.rank glob <=? Logged.rank Logged.DebugLevel); reflexivity.
      * eexists; split.
        { cbn [firstn map app sending sent stdout written].
          rewrite <- app_assoc; reflexivity. }
        rewrite warnings_app, Hw1; cbn [firstn filter failed snd is_ok negb].
        destruct (Logged.rank glob <=? Logged.rank Logged.DebugLevel);
          destruct (Logged.rank glob <=? Logged.rank Logged.WarnLevel); reflexivity.
    + unfold Logged.lbind at 1, Logged.emit at 1; cbn [Logged.base Logged.events].
      cbn [forallb visited].
      change (shas_long (repo, Err err)) with true; cbn [andb].
      match goal with
      | |- context [Logged.range_repos rest ?a glob w ?q] =>
          destruct (IH a q) as (evs2 & -> & Hw2)
      end.
      cbn [Logged.base Logged.events sending sent stdout written] in Hw2 |- *.
      eexists; split.
      { rewrite <- !app_assoc; cbn [firstn map app].
        unfold history; cbn [map concat block fst snd app]; reflexivity. }
      rewrite !warnings_app, Hw1, Hw2; cbn [firstn filter failed snd is_ok negb].
      destruct (Logged.rank glob <=? Logged.rank Logged.WarnLevel); reflexivity.
Qed.

Lemma listed_answer (w : World) (st : State) :
  listed w st
  = Done (answer unmarshal_repositories (w (List.length (sent st)) listing_request)).
Proof. unfold listed; now rewrite fetchRepositories_run. Qed.

Lemma calls_of_sending (w : World) (st : State) (repos : slice Repository.t) :
  calls_of w st repos
  = commit_calls w (sending (fresh st) listing_request) (elems repos).
Proof. unfold calls_of; now rewrite fetchRepositories_run. Qed.

Lemma error_is_written (glob : Logged.Level) :
  (Logged.rank glob <=? Logged.rank Logged.ErrorLevel) = true.
Proof. now destruct glob. Qed.

(** The logging version when the listing call fails. *)
Lemma logged_serve_failed (glob : Logged.Level) (w : World) (p : Logged.Process)
    (err : error) :
  listed w (Logged.base p) = Done (Err err) ->
  exists evs,
    Logged.serve glob w p
    = (make_HTTPReply 500 (JSONObject [("error", Error err)]),
       Logged.make_Process
         (make_State (sent (Logged.base p) ++ [listing_request])
            (stdout (Logged.base p))
            (Some (500%Z, gin_H [("error", Error err)])))
         (Logged.events p
          ++ evs
          ++ [Logged.make_Event Logged.ErrorLevel [Logged.Err_field err]
                "Failed to fetch repositories"])).
Proof.
  rewrite listed_answer; intros [= Hans].
  unfold Logged.serve, Logged.getGitHistory.
  unfold Logged.lbind at 1, Logged.emit at 1; cbn [Logged.base Logged.events].
  unfold Logged.lbind at 1.
  match goal with
  | |- context [Logged.fetchRepositories glob w ?q] =>
      destruct (logged_fetchRepositories_run glob w q) as (evs1 & -> & _)
  end.
  cbn [Logged.base Logged.events fresh sent] in *; rewrite Hans.
  unfold Logged.lbind, Logged.emit, Logged.plain, c_JSON.
  cbn [Logged.base Logged.events sending sent stdout written fresh].
  rewrite error_is_written; cbn [Marshal].
  rewrite <- !app_assoc.
  match goal with
  | |- exists evs, (_, Logged.make_Process _ (_ ++ ?a ++ ?b ++ _)) = _ =>
      exists (a ++ b)%list
  end.
  now rewrite <- !app_assoc.
Qed.

(** The logging version when the listing call succeeds and the loop
    reaches its end. *)
Lemma logged_serve_ok (glob : Logged.Level) (w : World) (p : Logged.Process)
    (repos : slice Repository.t) :
  listed w (Logged.base p) = Done (Ok repos) ->
  forallb shas_long (calls_of w (Logged.base p) repos) = true ->
  exists evs,
    Logged.serve glob w p
    = (make_HTTPReply 200
         (Marshal (Commits (extend nil_slice
                              (history (calls_of w (Logged.base p) repos))))),
       Logged.make_Process
         (make_State
            (sent (Logged.base p) ++ listing_request :: map request_of (elems repos))
            (stdout (Logged.base p))
            (Some (200%Z,
                   Commits (extend nil_slice
                              (history (calls_of w (Logged.base p) repos))))))
         (Logged.events p
          ++ evs
          ++ (if Logged.rank glob <=? Logged.rank Logged.InfoLevel
              then [Logged.make_Event Logged.InfoLevel
                      [Logged.Int "total_commits"
                         (Z.of_nat
                            (len (extend nil_slice
                                    (history (calls_of w (Logged.base p) repos)))))]
                      "Returning git history"]
              else [])))
    /\ Logged.warnings evs
       = if Logged.rank glob <=? Logged.rank Logged.WarnLevel
         then List.length (filter failed (calls_of w (Logged.base p) repos))
         else 0.
Proof.
  rewrite listed_answer, calls_of_sending; intros [= Hans] Hlong.
  unfold Logged.serve, Logged.getGitHistory.
  unfold Logged.lbind at 1, Logged.emit at 1; cbn [Logged.base Logged.events].
  unfold Logged.lbind at 1.
  match goal with
  | |- context [Logged.fetchRepositories glob w ?q] =>
      destruct (logged_fetchRepositories_run glob w q) as (evs1 & -> & Hw1)
  end.
  cbn [Logged.base Logged.events fresh sent] in *; rewrite Hans.
  unfold Logged.lbind at 1, Logged.emit at 1; cbn [Logged.base Logged.events].
  unfold Logged.lbind at 1.
  match goal with
  | |- context [Logged.range_repos (elems repos) nil_slice glob w ?q] =>
      destruct (logged_range_repos_run glob w (elems repos) nil_slice q)
        as (evs2 & -> & Hw2)
  end.
  cbn [Logged.base Logged.events] in Hw2 |- *.
  change (make_State (sent (Logged.base p)) (stdout (Logged.base p)) None)
    with (fresh (Logged.base p)) in *.
  rewrite Hlong in *.
  rewrite (visited_all _ Hlong), commit_calls_length, !firstn_all in *.
  unfold Logged.lbind, Logged.emit, Logged.plain, c_JSON.
  cbn [Logged.base Logged.events sending sent stdout written fresh].
  rewrite <- !app_assoc.
  match goal with
  | |- exists evs,
        (_, Logged.make_Process _ (_ ++ ?a ++ ?b ++ ?c ++ ?d ++ _)) = _ /\ _ =>
      exists (a ++ b ++ c ++ d)%list
  end.
  split; [cbn [app]; now rewrite <- !app_assoc |].
  rewrite !warnings_app, Hw1, Hw2.
  rewrite <- (commit_calls_length w (sending (fresh (Logged.base p)) listing_request)
                (elems repos)), firstn_all.
  destruct (Logged.rank glob <=? Logged.rank Logged.InfoLevel);
    destruct (Logged.rank glob <=? Logged.rank Logged.WarnLevel); reflexivity.
Qed.

(** The logging version when a hash is too short. *)
Lemma logged_serve_panic (glob : Logged.Level) (w : World) (p : Logged.Process)
    (repos : slice Repository.t) :
  listed w (Logged.base p) = Done (Ok repos) ->
  forallb shas_long (calls_of w (Logged.base p) repos) = false ->
  exists evs,
    Logged.serve glob w p
    = (make_HTTPReply 500 NoBody,
       Logged.make_Process
         (make_State
            (sent (Logged.base p)
             ++ listing_request
                :: map request_of
                     (firstn (visited (calls_of w (Logged.base p) repos))
                        (elems repos)))
            (stdout (Logged.base p)) None)
         (Logged.events p ++ evs)).
Proof.
  rewrite listed_answer, calls_of_sending; intros [= Hans] Hshort.
  unfold Logged.serve, Logged.getGitHistory.
  unfold Logged.lbind at 1, Logged.emit at 1; cbn [Logged.base Logged.events].
  unfold Logged.lbind at 1.
  match goal with
  | |- context [Logged.fetchRepositories glob w ?q] =>
      destruct (logged_fetchRepositories_run glob w q) as (evs1 & -> & Hw1)
  end.
  cbn [Logged.base Logged.events fresh sent] in *; rewrite Hans.
  unfold Logged.lbind at 1, Logged.emit at 1; cbn [Logged.base Logged.events].
  unfold Logged.lbind at 1.
  match goal with
  | |- context [Logged.range_repos (elems repos) nil_slice glob w ?q] =>
      destruct (logged_range_repos_run glob w (elems repos) nil_slice q)
        as (evs2 & -> & Hw2)
  end.
  cbn [Logged.base Logged.events] in Hw2 |- *.
  change (make_State (sent (Logged.base p)) (stdout (Logged.base p)) None)
    with (fresh (Logged.base p)) in *.
  rewrite Hshort.
  cbn [fst snd Logged.base sending sent stdout written fresh].
  rewrite <- !app_assoc.
  match goal with
  | |- exists evs, (_, Logged.make_Process _ (_ ++ ?a)) = _ => exists a
  end.
  reflexivity.
Qed.

(** X9.  Logging changes nothing a client or the upstream can see: at
    every level, against every upstream and from every state, the logging
    version gives the reply of the first version and sends the same
    requests; and it prints nothing, its lines going to the log instead. *)
Theorem logging_changes_no_reply (glob : Logged.Level) (w : World)
    (p : Logged.Process) :
  fst (Logged.serve glob w p) = fst (serve w (Logged.base p))
  /\ sent (Logged.base (snd (Logged.serve glob w p)))
     = sent (snd (serve w (Logged.base p)))
  /\ stdout (Logged.base (snd (Logged.serve glob w p))) = stdout (Logged.base p).
Proof.
  pose proof (listed_answer w (Logged.base p)) as Hl.
  destruct (answer unmarshal_repositories _) as [repos | err].
  - rewrite (serve_sent w _ repos Hl).
    destruct (forallb shas_long (calls_of w (Logged.base p) repos)) eqn:Hlong.
    + destruct (logged_serve_ok glob w p repos Hl Hlong) as (evs & -> & _).
      cbn [fst snd Logged.base sent stdout].
      apply listed_run in Hl.
      rewrite (serve_listing_ok w _ _ repos Hl Hlong); cbn [fst].
      unfold calls_of in *.
      rewrite (visited_all _ Hlong), commit_calls_length, firstn_all.
      repeat split; reflexivity.
    + destruct (logged_serve_panic glob w p repos Hl Hlong) as (evs & ->).
      cbn [fst snd Logged.base sent stdout].
      apply listed_run in Hl.
      rewrite (serve_listing_panic w _ _ repos Hl Hlong).
      repeat split; reflexivity.
  - destruct (logged_serve_failed glob w p err Hl) as (evs & ->).
    cbn [fst snd Logged.base sent stdout].
    apply listed_run in Hl.
    rewrite (serve_listing_failed w _ _ err Hl).
    repeat split; reflexivity.
Qed.

(** X10.  In a run of the logging version whose loop reaches its end, the
    events written hold one warning for each commit call that failed when
    the level lets warnings through (debug, info, warn), and none at the
    level error. *)
Theorem one_warning_per_failed_call (glob : Logged.Level) (w : World)
    (p : Logged.Process) (repos : slice Repository.t) :
  listed w (Logged.base p) = Done (Ok repos) ->
  forallb shas_long (calls_of w (Logged.base p) repos) = true ->
  exists evs,
    Logged.events (snd (Logged.serve glob w p)) = (Logged.events p ++ evs)%list
    /\ Logged.warnings evs
       = if Logged.rank glob <=? Logged.rank Logged.WarnLevel
         then List.length (filter failed (calls_of w (Logged.base p) repos))
         else 0.
Proof.
  intros Hl Hlong.
  destruct (logged_serve_ok glob w p repos Hl Hlong) as (evs & -> & Hw).
  cbn [snd Logged.events].
  eexists; split; [reflexivity |].
  rewrite warnings_app, Hw.
  destruct (Logged.rank glob <=? Logged.rank Logged.InfoLevel);
    cbn; lia.
Qed.

(** X11.  In such a run, at the levels debug and info, the last event
    written is the one that announces the reply, and the total it gives is
    the number of entries in the body of the reply. *)
Theorem last_event_counts_the_entries (glob : Logged.Level) (w : World)
    (p : Logged.Process) (repos : slice Repository.t) :
  listed w (Logged.base p) = Done (Ok repos) ->
  forallb shas_long (calls_of w (Logged.base p) repos) = true ->
  Logged.rank glob <= Logged.rank Logged.InfoLevel ->
  exists before,
    Logged.events (snd (Logged.serve glob w p))
    = (before
       ++ [Logged.make_Event Logged.InfoLevel
             [Logged.Int "total_commits"
                (Z.of_nat
                   (List.length (entries (body (fst (Logged.serve glob w p))))))]
             "Returning git history"])%list.
Proof.
  intros Hl Hlong Hrank.
  destruct (logged_serve_ok glob w p repos Hl Hlong) as (evs & -> & _).
  cbn [fst snd Logged.events body]; rewrite entries_Marshal.
  apply Nat.leb_le in Hrank; rewrite Hrank.
  exists (Logged.events p ++ evs)%list; now rewrite <- app_assoc.
Qed.

(** X12.  A failed listing call is logged at every level: the last event
    written is an error event that carries the very text the client gets
    in the 500. *)
Theorem listing_failure_is_always_logged (glob : Logged.Level) (w : World)
    (p : Logged.Process) (err : error) :
  listed w (Logged.base p) = Done (Err err) ->
  fst (Logged.serve glob w p)
  = make_HTTPReply 500 (JSONObject [("error", Error err)])
  /\ exists before,
       Logged.events (snd (Logged.serve glob w p))
       = (before
          ++ [Logged.make_Event Logged.ErrorLevel [Logged.Str "error" (Error err)]
                "Failed to fetch repositories"])%list.
Proof.
  intros Hl.
  destruct (logged_serve_failed glob w p err Hl) as (evs & ->).
  split; [reflexivity |].
  cbn [snd Logged.events].
  exists (Logged.events p ++ evs)%list; now rewrite <- app_assoc.
Qed.

End Logging.

(* ===================================================================== *)
(** ** The further theorems at sample runs *)
(* ===================================================================== *)

Section More_samples.
#[local] Existing Instance Sample.lib.

(** X1 at three repositories of which the second holds a hash of three
    bytes: the third is never asked for its commits. *)
Lemma requests_follow_the_listing_witness :
  listed More_runs.stops_at_second boot
  = Done (Ok (make_slice [Runs.repo_a; Runs.repo_b; More_runs.repo_c]))
  /\ sent (snd (serve More_runs.stops_at_second boot))
     = [listing_request; commits_request "u/a"; commits_request "u/b"].
Proof.
  assert (Hl : listed More_runs.stops_at_second boot
               = Done (Ok (make_slice [Runs.repo_a; Runs.repo_b; More_runs.repo_c])))
    by reflexivity.
  split; [exact Hl |].
  destruct (requests_follow_the_listing More_runs.stops_at_second boot _ Hl)
    as (Hsent & _).
  rewrite Hsent; reflexivity.
Defined.


(** X3 at the entry of the scenario. *)
Lemma entries_come_from_commits_witness :
  listed Runs.scenario boot = Done (Ok (make_slice [Runs.repo_a; Runs.repo_b]))
  /\ code (fst (serve Runs.scenario boot)) = 200%Z
  /\ In (entry_of Runs.repo_a Runs.commit_init)
       (entries (body (fst (serve Runs.scenario boot))))
  /\ exists repo commits commit,
       In repo [Runs.repo_a; Runs.repo_b]
       /\ In (repo, Ok commits)
            (calls_of Runs.scenario boot (make_slice [Runs.repo_a; Runs.repo_b]))
       /\ In commit (elems commits)
       /\ entry_of Runs.repo_a Runs.commit_init = entry_of repo commit
       /\ RepositoryName (entry_of Runs.repo_a Runs.commit_init)
          = Repository.Name repo
       /\ String.length (CommitSHA (entry_of Runs.repo_a Runs.commit_init)) = 7
       /\ prefix (CommitSHA (entry_of Runs.repo_a Runs.commit_init))
            (Commit.SHA commit) = true.
Proof.
  assert (Hl : listed Runs.scenario boot
               = Done (Ok (make_slice [Runs.repo_a; Runs.repo_b])))
    by reflexivity.
  assert (Hcode : code (fst (serve Runs.scenario boot)) = 200%Z) by reflexivity.
  assert (Hin : In (entry_of Runs.repo_a Runs.commit_init)
                  (entries (body (fst (serve Runs.scenario boot)))))
    by (left; reflexivity).
  split; [exact Hl |]; split; [exact Hcode |]; split; [exact Hin |].
  exact (entries_come_from_commits Runs.scenario boot _ _ Hl Hcode Hin).
Defined.

(** X5 at a listing refused with 403. *)
Lemma upstream_error_reaches_the_client_witness :
  More_runs.refuses (List.length (sent boot)) listing_request
  = Replied More_runs.rate_limited
  /\ StatusCode More_runs.rate_limited <> 200%Z
  /\ fst (serve More_runs.refuses boot)
     = make_HTTPReply 500
         (JSONObject
            [("error", "GitHub API error: 403 Forbidden - API rate limit exceeded")]).
Proof.
  assert (Hw : More_runs.refuses (List.length (sent boot)) listing_request
               = Replied More_runs.rate_limited)
    by reflexivity.
  assert (Hne : StatusCode More_runs.rate_limited <> 200%Z) by discriminate.
  split; [exact Hw |]; split; [exact Hne |].
  exact (proj2 (upstream_error_reaches_the_client More_runs.refuses boot) _ Hw Hne).
Defined.

(** X6 at the scenario, with and without descriptions and URLs in the
    listing. *)
Lemma unused_fields_do_not_matter_witness :
  listed Runs.scenario boot = Done (Ok (make_slice [Runs.repo_a; Runs.repo_b]))
  /\ listed More_runs.described boot
     = Done (Ok (make_slice [More_runs.described_a; More_runs.described_b]))
  /\ Forall2 same_to_handler [Runs.repo_a; Runs.repo_b]
       [More_runs.described_a; More_runs.described_b]
  /\ (forall n req,
        List.length (sent boot) < n -> Runs.scenario n req = More_runs.described n req)
  /\ serve Runs.scenario boot = serve More_runs.described boot.
Proof.
  assert (Hl1 : listed Runs.scenario boot
                = Done (Ok (make_slice [Runs.repo_a; Runs.repo_b])))
    by reflexivity.
  assert (Hl2 : listed More_runs.described boot
                = Done (Ok (make_slice [More_runs.described_a; More_runs.described_b])))
    by reflexivity.
  assert (Hsame : Forall2 same_to_handler [Runs.repo_a; Runs.repo_b]
                    [More_runs.described_a; More_runs.described_b])
    by (repeat constructor).
  assert (Hw : forall n req,
             List.length (sent boot) < n ->
             Runs.scenario n req = More_runs.described n req).
  { intros [| n] req Hn; [cbn in Hn; lia | reflexivity]. }
  split; [exact Hl1 |]; split; [exact Hl2 |]; split; [exact Hsame |].
  split; [exact Hw |].
  exact (unused_fields_do_not_matter Runs.scenario More_runs.described boot
           _ _ Hl1 Hl2 Hsame Hw).
Defined.

(** X7 at a listing of an empty object and a [null]: two repositories
    without a name, and a commit call for each. *)
Lemma every_listing_element_is_fetched_witness :
  More_runs.nameless (List.length (sent boot)) listing_request
  = Replied (make_Response 200 "200 OK" (Runs.print (JArr [JObj []; JNull]))
               (Ok (JArr [JObj []; JNull])))
  /\ listed More_runs.nameless boot
     = Done (Ok (make_slice [Repository.zero; Repository.zero]))
  /\ forallb shas_long
       (calls_of More_runs.nameless boot
          (make_slice [Repository.zero; Repository.zero])) = true
  /\ List.length (sent (snd (serve More_runs.nameless boot))) = 3.
Proof.
  assert (Hw : More_runs.nameless (List.length (sent boot)) listing_request
               = Replied (make_Response 200 "200 OK"
                            (Runs.print (JArr [JObj []; JNull]))
                            (Ok (JArr [JObj []; JNull]))))
    by reflexivity.
  assert (Hl : listed More_runs.nameless boot
               = Done (Ok (make_slice [Repository.zero; Repository.zero])))
    by reflexivity.
  assert (Hlong : forallb shas_long
                    (calls_of More_runs.nameless boot
                       (make_slice [Repository.zero; Repository.zero])) = true)
    by reflexivity.
  split; [exact Hw |]; split; [exact Hl |]; split; [exact Hlong |].
  destruct (every_listing_element_is_fetched More_runs.nameless boot _ _ _
              Hw eq_refl eq_refl Hl)
    as (_ & _ & Hsent).
  rewrite (Hsent Hlong); reflexivity.
Defined.

(** X10 at the scenario, at the level warn: one call fails, one warning. *)
Lemma one_warning_per_failed_call_witness :
  listed Runs.scenario (Logged.base More_runs.quiet)
  = Done (Ok (make_slice [Runs.repo_a; Runs.repo_b]))
  /\ forallb shas_long
       (calls_of Runs.scenario (Logged.base More_runs.quiet)
          (make_slice [Runs.repo_a; Runs.repo_b])) = true
  /\ exists evs,
       Logged.events (snd (Logged.serve Logged.WarnLevel Runs.scenario More_runs.quiet))
       = (Logged.events More_runs.quiet ++ evs)%list
       /\ Logged.warnings evs = 1.
Proof.
  assert (Hl : listed Runs.scenario (Logged.base More_runs.quiet)
               = Done (Ok (make_slice [Runs.repo_a; Runs.repo_b])))
    by reflexivity.
  assert (Hlong : forallb shas_long
                    (calls_of Runs.scenario (Logged.base More_runs.quiet)
                       (make_slice [Runs.repo_a; Runs.repo_b])) = true)
    by reflexivity.
  split; [exact Hl |]; split; [exact Hlong |].
  destruct (one_warning_per_failed_call Logged.WarnLevel Runs.scenario
              More_runs.quiet _ Hl Hlong)
    as (evs & Hevs & Hcount).
  exists evs; split; [exact Hevs | rewrite Hcount; reflexivity].
Defined.

(** X11 at the scenario, at the level info: the total is one. *)
Lemma last_event_counts_the_entries_witness :
  listed Runs.scenario (Logged.base More_runs.quiet)
  = Done (Ok (make_slice [Runs.repo_a; Runs.repo_b]))
  /\ forallb shas_long
       (calls_of Runs.scenario (Logged.base More_runs.quiet)
          (make_slice [Runs.repo_a; Runs.repo_b])) = true
  /\ Logged.rank Logged.InfoLevel <= Logged.rank Logged.InfoLevel
  /\ exists before,
       Logged.events (snd (Logged.serve Logged.InfoLevel Runs.scenario More_runs.quiet))
       = (before
          ++ [Logged.make_Event Logged.InfoLevel [Logged.Int "total_commits" 1]
                "Returning git history"])%list.
Proof.
  assert (Hl : listed Runs.scenario (Logged.base More_runs.quiet)
               = Done (Ok (make_slice [Runs.repo_a; Runs.repo_b])))
    by reflexivity.
  assert (Hlong : forallb shas_long
                    (calls_of Runs.scenario (Logged.base More_runs.quiet)
                       (make_slice [Runs.repo_a; Runs.repo_b])) = true)
    by reflexivity.
  split; [exact Hl |]; split; [exact Hlong |]; split; [apply le_n |].
  destruct (last_event_counts_the_entries Logged.InfoLevel Runs.scenario
              More_runs.quiet _ Hl Hlong (le_n _))
    as (before & Hevs).
  exists before; rewrite Hevs; reflexivity.
Defined.

(** X12 at the run whose listing call times out, at the level error. *)
Lemma listing_failure_is_always_logged_witness :
  listed Runs.timeout (Logged.base More_runs.quiet)
  = Done (Err (ClientError "context deadline exceeded"))
  /\ fst (Logged.serve Logged.ErrorLevel Runs.timeout More_runs.quiet)
     = make_HTTPReply 500 (JSONObject [("error", "context deadline exceeded")])
  /\ exists before,
       Logged.events (snd (Logged.serve Logged.ErrorLevel Runs.timeout More_runs.quiet))
       = (before
          ++ [Logged.make_Event Logged.ErrorLevel
                [Logged.Str "error" "context deadline exceeded"]
                "Failed to fetch repositories"])%list.
Proof.
  assert (Hl : listed Runs.timeout (Logged.base More_runs.quiet)
               = Done (Err (ClientError "context deadline exceeded")))
    by reflexivity.
  split; [exact Hl |].
  exact (listing_failure_is_always_logged Logged.ErrorLevel Runs.timeout
           More_runs.quiet _ Hl).
Defined.

End More_samples.
